(** * tele_app: the connection manager and the request handlers

    A shallow embedding of [src/tele_app.py].  The Python code is a thin
    layer of control flow over an external client library (Telethon), the
    uuid generator and the local file system.  Those collaborators are
    modelled as an environment that answers every outgoing call either with
    a value or with a raised exception; the program state is the
    process-wide [TelegramClientManager] together with the chronological
    record of the calls that reached the environment. *)

From Stdlib Require Import ZArith String Ascii List Lia DecimalString.
From stdpp Require Import base tactics option list gmap sets strings.

Local Open Scope Z_scope.
Local Open Scope string_scope.

(** ** Exceptions

    The exceptions of class [Exception]: FastAPI's [HTTPException], the two
    Telethon errors that [verify_otp] names, and any other [Exception] a
    collaborator raises.  These are the exceptions an [except Exception]
    clause catches.  Exceptions that derive from [BaseException] only
    ([asyncio.CancelledError], [KeyboardInterrupt]) are not caught by such a
    clause and are not modelled: a run that is cancelled or interrupted is
    outside what the statements below describe. *)

Inductive exn : Type :=
| HTTPException (status_code : Z) (detail : string)
| SessionPasswordNeededError (msg : string)
| PhoneCodeInvalidError (msg : string)
| OtherException (msg : string).

Definition decimal (z : Z) : string := NilZero.string_of_int (Z.to_int z).

(** [str(e)].  Starlette's [HTTPException.__str__] renders
    [f"{status_code}: {detail}"]; the other exceptions carry their text. *)
Definition str_exn (e : exn) : string :=
  match e with
  | HTTPException status_code detail => decimal status_code +:+ ": " +:+ detail
  | SessionPasswordNeededError msg => msg
  | PhoneCodeInvalidError msg => msg
  | OtherException msg => msg
  end.

(** ** Values exchanged with the collaborators *)

(** The identity of a [TelegramClient] object. *)
Definition handle := nat.
Bind Scope nat_scope with handle.

Record SentCode := { phone_code_hash : string }.
Record User := { first_name : option string }.
Record InputFile := { file_ref : string }.

Record InputMediaUploadedPhoto := {
  media_file : InputFile;
  media_spoiler : bool;
  media_ttl_seconds : Z
}.

Inductive InputPrivacyRule := InputPrivacyValueAllowContacts.

(** ** Calls that leave the program *)

Inductive call : Type :=
| NewTelegramClient (self : handle) (session : string) (api_id : Z) (api_hash : string)
| Connect (client : handle)
| Disconnect (client : handle)
| SendCodeRequest (client : handle) (phone : string) (force_sms : bool)
| SignIn (client : handle) (phone code code_hash : string)
| GetMe (client : handle)
| IsUserAuthorized (client : handle)
| ClientUploadFile (client : handle) (path : string)
| InvokeSendStory (client : handle) (peer : string)
    (media : InputMediaUploadedPhoto) (privacy_rules : list InputPrivacyRule)
| Uuid4
| CopyToFile (path : string) (data : string).

(** What each call returns when it does not raise. *)
Definition ret_ty (c : call) : Type :=
  match c with
  | NewTelegramClient _ _ _ _ => unit
  | Connect _ => unit
  | Disconnect _ => unit
  | SendCodeRequest _ _ _ => SentCode
  | SignIn _ _ _ _ => unit
  | GetMe _ => option User
  | IsUserAuthorized _ => bool
  | ClientUploadFile _ _ => InputFile
  | InvokeSendStory _ _ _ _ => unit
  | Uuid4 => string
  | CopyToFile _ _ => unit
  end.

Record event := { ev_call : call; ev_ok : bool }.

(** The environment: given the calls made so far it answers the next one
    with a raised exception or with a result. *)
Definition Env : Type := list event -> forall c : call, exn + ret_ty c.

(** ** Program state *)

Record TelegramClientManager := {
  client : option handle;
  app_id : option Z;
  app_hash : option string
}.

(** [TelegramClientManager.__init__] *)
Definition manager_init : TelegramClientManager :=
  {| client := None; app_id := None; app_hash := None |}.

Record state := { mgr : TelegramClientManager; trace : list event }.

Definition initial_state : state := {| mgr := manager_init; trace := [] |}.

(** ** Computations that may raise *)

Definition M (A : Type) : Type := state -> (exn + A) * state.

Definition ret {A} (a : A) : M A := fun st => (inr a, st).

Definition raise {A} (e : exn) : M A := fun st => (inl e, st).

Definition bind {A B} (m : M A) (k : A -> M B) : M B :=
  fun st =>
    match m st with
    | (inl e, st') => (inl e, st')
    | (inr a, st') => k a st'
    end.

Notation "x <- m ;; k" := (bind m (fun x => k))
  (at level 100, m at next level, right associativity).
Notation "m ;;; k" := (bind m (fun _ => k))
  (at level 100, right associativity).

(** [try: body except Exception as e: handler e] *)
Definition try_except {A} (body : M A) (handler : exn -> M A) : M A :=
  fun st =>
    match body st with
    | (inl e, st') => handler e st'
    | (inr a, st') => (inr a, st')
    end.

Definition get_mgr : M TelegramClientManager := fun st => (inr (mgr st), st).

Definition put_mgr (m : TelegramClientManager) : M unit :=
  fun st => (inr tt, {| mgr := m; trace := trace st |}).

Definition succeeded {A} (r : exn + A) : bool :=
  match r with inl _ => false | inr _ => true end.

Definition record_call (c : call) (ok : bool) (st : state) : state :=
  {| mgr := mgr st; trace := trace st ++ [{| ev_call := c; ev_ok := ok |}] |}.

(** An outgoing call: the environment answers, the call is recorded. *)
Definition invoke (env : Env) (c : call) : M (ret_ty c) :=
  fun st => let r := env (trace st) c in (r, record_call c (succeeded r) st).

(** A newly constructed object is distinct from every object that an
    earlier call mentions: it is numbered by the length of the record. *)
Definition fresh_handle : M handle := fun st => (inr (length (trace st)), st).

(** ** The connection manager *)

Definition session_file_path : string := "session_name".

Module Manager.

(** [TelegramClientManager.get_client] *)
Definition get_client : M handle :=
  m <- get_mgr ;;
  match client m with
  | None => raise (HTTPException 400 "Client not initialized")
  | Some c => ret c
  end.

(** [TelegramClientManager.initialize_client] *)
Definition initialize_client (env : Env) (app_id' : Z) (app_hash' : string) : M unit :=
  m <- get_mgr ;;
  match client m with
  | Some old => invoke env (Disconnect old)
  | None => ret tt
  end ;;;
  m <- get_mgr ;;
  put_mgr {| client := client m; app_id := Some app_id'; app_hash := app_hash m |} ;;;
  m <- get_mgr ;;
  put_mgr {| client := client m; app_id := app_id m; app_hash := Some app_hash' |} ;;;
  self <- fresh_handle ;;
  invoke env (NewTelegramClient self session_file_path app_id' app_hash') ;;;
  m <- get_mgr ;;
  put_mgr {| client := Some self; app_id := app_id m; app_hash := app_hash m |} ;;;
  invoke env (Connect self).

(** [TelegramClientManager.disconnect] *)
Definition disconnect (env : Env) : M unit :=
  m <- get_mgr ;;
  match client m with
  | Some c => invoke env (Disconnect c)
  | None => ret tt
  end.

End Manager.

(** ** Path functions of the standard library ([posixpath]) *)

Module os_path.

Definition sep : ascii := "/"%char.
Definition extsep : ascii := "."%char.

(** [p.rfind(c)] for a one-character [c]: the highest index, or [-1]. *)
Fixpoint rfind_from (c : ascii) (p : string) (i : Z) (found : Z) : Z :=
  match p with
  | EmptyString => found
  | String a p' => rfind_from c p' (i + 1) (if Ascii.eqb a c then i else found)
  end.

Definition rfind (c : ascii) (p : string) : Z := rfind_from c p 0 (-1).

(** [p[:n]] and [p[n:]] for [0 <= n]. *)
Fixpoint take (n : nat) (p : string) : string :=
  match n, p with
  | S n', String a p' => String a (take n' p')
  | _, _ => EmptyString
  end.

Fixpoint drop (n : nat) (p : string) : string :=
  match n, p with
  | S n', String _ p' => drop n' p'
  | _, _ => p
  end.

(** The [while filenameIndex < dotIndex] loop of [genericpath._splitext]:
    [todo] is the number of iterations left. *)
Fixpoint skip_leading_dots (p : string) (filenameIndex : nat) (todo : nat)
    (dotIndex : nat) : string * string :=
  match todo with
  | O => (p, EmptyString)
  | S todo' =>
      if negb (bool_decide (String.get filenameIndex p = Some extsep))
      then (take dotIndex p, drop dotIndex p)
      else skip_leading_dots p (S filenameIndex) todo' dotIndex
  end.

(** [os.path.splitext(p)] *)
Definition splitext (p : string) : string * string :=
  let sepIndex := rfind sep p in
  let dotIndex := rfind extsep p in
  if dotIndex >? sepIndex then
    let filenameIndex := sepIndex + 1 in
    skip_leading_dots p (Z.to_nat filenameIndex)
      (Z.to_nat (dotIndex - filenameIndex)) (Z.to_nat dotIndex)
  else (p, EmptyString).

Definition startswith_sep (b : string) : bool :=
  match b with String c _ => Ascii.eqb c sep | EmptyString => false end.

Fixpoint endswith_sep (a : string) : bool :=
  match a with
  | EmptyString => false
  | String c EmptyString => Ascii.eqb c sep
  | String _ a' => endswith_sep a'
  end.

(** [os.path.join(a, b)] *)
Definition join (a b : string) : string :=
  if startswith_sep b then b
  else if (bool_decide (a = EmptyString) || endswith_sep a)%bool then a +:+ b
  else a +:+ String sep b.

End os_path.

(** ** Requests and responses *)

Module PhoneNumber.
Record t := { phone : string; app_id : Z; app_hash : string }.
End PhoneNumber.

Module OTPVerification.
Record t := { phone : string; code : string; phone_code_hash : string }.
End OTPVerification.

Module StoryRequest.
Record t := { peer : string; file_path : string; spoiler : bool; ttl_seconds : Z }.
(** The declared defaults of the optional fields. *)
Definition default_spoiler : bool := true.
Definition default_ttl_seconds : Z := 42.
End StoryRequest.

Module UploadFile.
Record t := { filename : option string; file : string }.
End UploadFile.

(** A JSON object with text values. *)
Definition json : Type := list (string * string).

Record response := { status : Z; body : json }.

(** What the framework sends for the outcome of an endpoint function: the
    returned object with status 200, an [HTTPException] with its own status
    and detail, anything else as an internal server error. *)
Definition respond (r : exn + json) : response :=
  match r with
  | inr b => {| status := 200; body := b |}
  | inl (HTTPException status_code detail) =>
      {| status := status_code; body := [("detail", detail)] |}
  | inl _ => {| status := 500; body := [("detail", "Internal Server Error")] |}
  end.

Definition is_client_error (r : response) : bool :=
  ((400 <=? status r)%Z && (status r <? 500)%Z)%bool.

(** ** Request handlers *)

(** The module-level [get_client], used directly and as a dependency. *)
Definition get_client : M handle := Manager.get_client.

Definition UPLOAD_DIR : string := "uploads".

(** [str(x)] of an optional text inside an f-string. *)
Definition str_opt (o : option string) : string :=
  match o with Some s => s | None => "None" end.

(** [POST /upload_image] *)
Definition upload_image (env : Env) (file : UploadFile.t) : M json :=
  try_except
    (name <- match UploadFile.filename file with
             | Some name => ret name
             | None => raise (OtherException
                 "expected str, bytes or os.PathLike object, not NoneType")
             end ;;
     let file_extension := snd (os_path.splitext name) in
     uuid <- invoke env Uuid4 ;;
     let unique_filename := uuid +:+ file_extension in
     let file_path := os_path.join UPLOAD_DIR unique_filename in
     invoke env (CopyToFile file_path (UploadFile.file file)) ;;;
     let file_uri := "/uploads/" +:+ unique_filename in
     ret [("file_uri", file_uri); ("message", "Image uploaded successfully")])
    (fun e => raise (HTTPException 500 (str_exn e))).

(** [POST /generate_otp] *)
Definition generate_otp (env : Env) (phone_number : PhoneNumber.t) : M json :=
  try_except
    (Manager.initialize_client env (PhoneNumber.app_id phone_number)
       (PhoneNumber.app_hash phone_number) ;;;
     client <- get_client ;;
     result <- invoke env (SendCodeRequest client (PhoneNumber.phone phone_number) true) ;;
     ret [("phone_code_hash", phone_code_hash result)])
    (fun e => raise (HTTPException 500 (str_exn e))).

(** [POST /verify_otp] *)
Definition verify_otp (env : Env) (otp_verification : OTPVerification.t) : M json :=
  try_except
    (client <- get_client ;;
     invoke env (SignIn client (OTPVerification.phone otp_verification)
                   (OTPVerification.code otp_verification)
                   (OTPVerification.phone_code_hash otp_verification)) ;;;
     me <- invoke env (GetMe client) ;;
     match me with
     | Some user =>
         ret [("message", "Authenticated as " +:+ str_opt (first_name user))]
     | None =>
         raise (OtherException "'NoneType' object has no attribute 'first_name'")
     end)
    (fun e =>
       match e with
       | SessionPasswordNeededError _ =>
           raise (HTTPException 401
                    "Two-step verification is enabled. Please provide the password.")
       | PhoneCodeInvalidError _ =>
           raise (HTTPException 401 "Invalid code provided.")
       | _ => raise (HTTPException 500 (str_exn e))
       end).

(** The body of [send_story], once the dependency has supplied [client]. *)
Definition send_story_body (env : Env) (story_request : StoryRequest.t)
    (client : handle) : M json :=
  try_except
    (authorized <- invoke env (IsUserAuthorized client) ;;
     (if negb authorized
      then raise (HTTPException 401 "Unauthorized. Please authenticate first.")
      else ret tt) ;;;
     uploaded <- invoke env (ClientUploadFile client (StoryRequest.file_path story_request)) ;;
     invoke env (InvokeSendStory client (StoryRequest.peer story_request)
                   {| media_file := uploaded;
                      media_spoiler := StoryRequest.spoiler story_request;
                      media_ttl_seconds := StoryRequest.ttl_seconds story_request |}
                   [InputPrivacyValueAllowContacts]) ;;;
     ret [("message", "Story sent successfully")])
    (fun e => raise (HTTPException 500 (str_exn e))).

(** [POST /send_story]: [Depends(get_client)] is resolved by the framework
    before the function body runs, outside its [try]. *)
Definition send_story (env : Env) (story_request : StoryRequest.t) : M json :=
  client <- get_client ;;
  send_story_body env story_request client.

(** An endpoint as the caller sees it. *)
Definition serve (handler : M json) (st : state) : response * state :=
  let (r, st') := handler st in (respond r, st').

(** ** Reading the record of calls *)

(** The events a computation added to the record. *)
Definition added (before after : state) : list event :=
  skipn (length (trace before)) (trace after).

Definition is_upload_call (c : call) : bool :=
  match c with ClientUploadFile _ _ => true | _ => false end.

Definition is_story_call (c : call) : bool :=
  match c with InvokeSendStory _ _ _ _ => true | _ => false end.

Definition count_calls (p : call -> bool) (evs : list event) : nat :=
  length (filter (fun e => p (ev_call e) = true) evs).

(** The transports that are open after a record of calls, as a recording
    stand-in for the client library tracks them: a [connect] that returns
    opens the transport of its client, a [disconnect] that returns closes
    it, and a call that raises changes nothing. *)
Definition transport_step (live : gset handle) (e : event) : gset handle :=
  match ev_call e, ev_ok e with
  | Connect c, true => {[c]} ∪ live
  | Disconnect c, true => live ∖ {[c]}
  | _, _ => live
  end.

Definition live_after (evs : list event) : gset handle :=
  foldl transport_step ∅ evs.

(** ** Sequences of manager operations and requests *)

Inductive op : Type :=
| OpInitialize (app_id : Z) (app_hash : string)
| OpGetClient
| OpDisconnect
| OpGenerateOtp (r : PhoneNumber.t)
| OpVerifyOtp (r : OTPVerification.t)
| OpSendStory (r : StoryRequest.t)
| OpUploadImage (r : UploadFile.t).

Definition run_op (env : Env) (o : op) (st : state) : state :=
  match o with
  | OpInitialize i h => snd (Manager.initialize_client env i h st)
  | OpGetClient => snd (Manager.get_client st)
  | OpDisconnect => snd (Manager.disconnect env st)
  | OpGenerateOtp r => snd (generate_otp env r st)
  | OpVerifyOtp r => snd (verify_otp env r st)
  | OpSendStory r => snd (send_story env r st)
  | OpUploadImage r => snd (upload_image env r st)
  end.

Definition run_ops (env : Env) (ops : list op) (st : state) : state :=
  foldl (fun s o => run_op env o s) st ops.

(** ** Stand-ins for the collaborators, for concrete runs *)

Record script := {
  on_sign_in : exn + unit;
  on_is_user_authorized : bool;
  on_uuid4 : list string
}.

(** A scripted environment: every call returns, except [sign_in], which
    does what the script says; the n-th [uuid4()] returns the n-th
    identifier of the script. *)
Definition scripted (s : script) : Env :=
  fun history c =>
    match c return exn + ret_ty c with
    | NewTelegramClient _ _ _ _ => inr tt
    | Connect _ => inr tt
    | Disconnect _ => inr tt
    | SendCodeRequest _ _ _ => inr {| phone_code_hash := "T1" |}
    | SignIn _ _ _ _ => on_sign_in s
    | GetMe _ => inr (Some {| first_name := Some "Ada" |})
    | IsUserAuthorized _ => inr (on_is_user_authorized s)
    | ClientUploadFile _ path => inr {| file_ref := path |}
    | InvokeSendStory _ _ _ _ => inr tt
    | Uuid4 =>
        inr (nth (count_calls (fun c' => match c' with Uuid4 => true | _ => false end)
                    history)
               (on_uuid4 s) "00000000-0000-4000-8000-000000000000")
    | CopyToFile _ _ => inr tt
    end.

Definition happy : script :=
  {| on_sign_in := inr tt; on_is_user_authorized := true;
     on_uuid4 := ["1b9d6bcd-bbfd-4b2d-9b5d-ab8dfbbd4bed";
                  "6ec0bd7f-11c0-43da-975e-2a8ad9ebae0b"] |}.

Definition unauthorized : script :=
  {| on_sign_in := on_sign_in happy; on_is_user_authorized := false;
     on_uuid4 := on_uuid4 happy |}.

Definition wrong_code : script :=
  {| on_sign_in := inl (PhoneCodeInvalidError "The phone code entered was invalid");
     on_is_user_authorized := false; on_uuid4 := on_uuid4 happy |}.

Definition two_factor : script :=
  {| on_sign_in := inl (SessionPasswordNeededError
       "Two-steps verification is enabled and a password is required");
     on_is_user_authorized := false; on_uuid4 := on_uuid4 happy |}.

Definition connected_state (c : handle) : state :=
  {| mgr := {| client := Some c; app_id := Some 123; app_hash := Some "abc" |};
     trace := [{| ev_call := NewTelegramClient c session_file_path 123 "abc"; ev_ok := true |};
               {| ev_call := Connect c; ev_ok := true |}] |}.

Definition story_request : StoryRequest.t :=
  {| StoryRequest.peer := "me"; StoryRequest.file_path := "uploads/a.jpg";
     StoryRequest.spoiler := StoryRequest.default_spoiler;
     StoryRequest.ttl_seconds := StoryRequest.default_ttl_seconds |}.

Definition otp_request : OTPVerification.t :=
  {| OTPVerification.phone := "+15550001"; OTPVerification.code := "00000";
     OTPVerification.phone_code_hash := "T1" |}.

Definition phone_request : PhoneNumber.t :=
  {| PhoneNumber.phone := "+15550001"; PhoneNumber.app_id := 123;
     PhoneNumber.app_hash := "abc" |}.

Definition photo (name : string) : UploadFile.t :=
  {| UploadFile.filename := Some name; UploadFile.file := "bytes" |}.

(** ** Notions used in the statements *)

Definition unauthorized_event (c : handle) : event :=
  {| ev_call := IsUserAuthorized c; ev_ok := true |}.

Definition invalid_code_response : response :=
  {| status := 401; body := [("detail", "Invalid code provided.")] |}.

Definition two_factor_response : response :=
  {| status := 401;
     body := [("detail",
               "Two-step verification is enabled. Please provide the password.")] |}.

Definition sign_in_call (c : handle) (r : OTPVerification.t) : call :=
  SignIn c (OTPVerification.phone r) (OTPVerification.code r)
    (OTPVerification.phone_code_hash r).

Definition new_client_call (self : handle) (i : Z) (a : string) : call :=
  NewTelegramClient self session_file_path i a.

Definition credentials (c : option handle) (i : Z) (a : string) : TelegramClientManager :=
  {| client := c; app_id := Some i; app_hash := Some a |}.

(** The part of [initialize_client] after the [if]: construct, store,
    connect. *)
Definition open_new (env : Env) (i : Z) (a : string) (st : state) : (exn + unit) * state :=
  let self := length (trace st) in
  match env (trace st) (new_client_call self i a) with
  | inl e =>
      (inl e, {| mgr := credentials (client (mgr st)) i a;
                 trace := trace st ++ [{| ev_call := new_client_call self i a;
                                          ev_ok := false |}] |})
  | inr _ =>
      let t := (trace st ++ [{| ev_call := new_client_call self i a; ev_ok := true |}])%list in
      (env t (Connect self),
       {| mgr := credentials (Some self) i a;
          trace := t ++ [{| ev_call := Connect self;
                            ev_ok := succeeded (env t (Connect self)) |}] |})
  end.

Definition opens_only (self : handle) (i : Z) (a : string) (e : event) : Prop :=
  ev_call e = new_client_call self i a \/ ev_call e = Connect self.

Definition code_request (c : handle) (r : PhoneNumber.t) : call :=
  SendCodeRequest c (PhoneNumber.phone r) true.

Definition initialize_for (env : Env) (r : PhoneNumber.t) (st : state) : (exn + unit) * state :=
  Manager.initialize_client env (PhoneNumber.app_id r) (PhoneNumber.app_hash r) st.

(** [b.get(key)] on a JSON object. *)
Fixpoint json_get (key : string) (b : json) : option string :=
  match b with
  | [] => None
  | (k, v) :: b' => if bool_decide (k = key) then Some v else json_get key b'
  end.

Definition file_extension (name : string) : string := snd (os_path.splitext name).
Definition base_name (name : string) : string := fst (os_path.splitext name).

Definition upload_body (uuid ext : string) : json :=
  [("file_uri", "/uploads/" +:+ (uuid +:+ ext));
   ("message", "Image uploaded successfully")].

(** ** Notions used for the remaining behaviour of the handlers *)

(** [lifespan]: what runs after the [yield], when the application shuts
    down. *)
Definition lifespan_shutdown (env : Env) : M unit := Manager.disconnect env.

(** Every open transport belongs to the client the manager stores. *)
Definition only_stored_live (st : state) : Prop :=
  forall c : handle, c ∈ live_after (trace st) -> client (mgr st) = Some c.

Definition is_transport_call (c : call) : bool :=
  match c with Connect _ => true | Disconnect _ => true | _ => false end.

Definition is_disconnect_call (c : call) : bool :=
  match c with Disconnect _ => true | _ => false end.

Definition is_code_request (c : call) : bool :=
  match c with SendCodeRequest _ _ _ => true | _ => false end.

Definition authorization_query (c : handle) : call := IsUserAuthorized c.

Definition upload_call (c : handle) (r : StoryRequest.t) : call :=
  ClientUploadFile c (StoryRequest.file_path r).

Definition story_call (c : handle) (r : StoryRequest.t) (f : InputFile) : call :=
  InvokeSendStory c (StoryRequest.peer r)
    {| media_file := f;
       media_spoiler := StoryRequest.spoiler r;
       media_ttl_seconds := StoryRequest.ttl_seconds r |}
    [InputPrivacyValueAllowContacts].

Definition story_sent : json := [("message", "Story sent successfully")].

Definition authenticated_as (u : User) : json :=
  [("message", "Authenticated as " +:+ str_opt (first_name u))].

Definition error_response (status_code : Z) (detail : string) : response :=
  {| status := status_code; body := [("detail", detail)] |}.

(** [c in s] for a character [c]. *)
Fixpoint has_char (c : ascii) (s : string) : bool :=
  match s with
  | EmptyString => false
  | String a s' => (Ascii.eqb a c || has_char c s')%bool
  end.

(** The file a successful upload writes. *)
Definition stored_path (uuid name : string) : string :=
  "uploads/" +:+ (uuid +:+ file_extension name).

Definition wrote (e : event) : bool :=
  match ev_call e with CopyToFile _ _ => ev_ok e | _ => false end.

Definition files_written (evs : list event) : nat :=
  length (filter (fun e => wrote e = true) evs).

(** An environment in which the calls selected by [bad] raise and all
    others answer as [scripted happy] does. *)
Definition failing (bad : call -> bool) : Env :=
  fun history c =>
    match bad c with
    | true => inl (OtherException "connection lost")
    | false => scripted happy history c
    end.

Definition is_new_client_call (c : call) : bool :=
  match c with NewTelegramClient _ _ _ _ => true | _ => false end.

Definition is_connect_call (c : call) : bool :=
  match c with Connect _ => true | _ => false end.

Definition is_write_call (c : call) : bool :=
  match c with CopyToFile _ _ => true | _ => false end.

(** An environment whose [get_me] answers [r] and whose other calls
    answer as [scripted happy] does. *)
Definition with_get_me (r : exn + option User) : Env :=
  fun history c =>
    match c return exn + ret_ty c with
    | GetMe _ => r
    | c' => scripted happy history c'
    end.

(** The [except] clauses of [verify_otp]: what is raised in place of an
    exception [e] that leaves the [try] body. *)
Definition verify_otp_except (e : exn) : exn :=
  match e with
  | SessionPasswordNeededError _ =>
      HTTPException 401 "Two-step verification is enabled. Please provide the password."
  | PhoneCodeInvalidError _ => HTTPException 401 "Invalid code provided."
  | _ => HTTPException 500 (str_exn e)
  end.

Definition no_first_name : string := "'NoneType' object has no attribute 'first_name'".

Definition no_filename : string :=
  "expected str, bytes or os.PathLike object, not NoneType".

(** The write that [upload_image] issues for a generated identifier. *)
Definition write_call (uuid name data : string) : call :=
  CopyToFile (os_path.join UPLOAD_DIR (uuid +:+ file_extension name)) data.

(** The [disconnect] that [initialize_client] issues first, when it
    returns: one call on the stored client, none when no client is stored. *)
Definition teardown_events (st : state) : list event :=
  match client (mgr st) with
  | Some old => [{| ev_call := Disconnect old; ev_ok := true |}]
  | None => []
  end.

(** * Properties *)

Ltac unfold_m :=
  unfold serve, bind, try_except, ret, raise, get_mgr, put_mgr, invoke,
    fresh_handle, record_call in *.

Ltac run_manager :=
  unfold get_client, Manager.get_client, Manager.disconnect,
    Manager.initialize_client in *; unfold_m; simpl in *.

(** ** The connection manager on its own *)

Lemma get_client_pure (st : state) : snd (Manager.get_client st) = st.
Proof. run_manager. by destruct (client (mgr st)). Qed.

Lemma get_client_some (st : state) (c : handle) :
  client (mgr st) = Some c -> Manager.get_client st = (inr c, st).
Proof. intros Hc. run_manager. by rewrite Hc. Qed.

Lemma get_client_none (st : state) :
  client (mgr st) = None ->
  Manager.get_client st = (inl (HTTPException 400 "Client not initialized"), st).
Proof. intros Hc. run_manager. by rewrite Hc. Qed.

Lemma disconnect_none (env : Env) (st : state) :
  client (mgr st) = None -> Manager.disconnect env st = (inr tt, st).
Proof. intros Hc. run_manager. by rewrite Hc. Qed.

Lemma disconnect_some (env : Env) (st : state) (c : handle) :
  client (mgr st) = Some c ->
  Manager.disconnect env st =
    (env (trace st) (Disconnect c),
     record_call (Disconnect c) (succeeded (env (trace st) (Disconnect c))) st).
Proof. intros Hc. run_manager. rewrite Hc. by destruct (env _ _). Qed.

(** C7: with no client stored, [get_client] raises the 400 "Client not
    initialized" exception, which the framework sends as a client error
    (as it does for [send_story], whose dependency it is); [get_client]
    never changes the state, whatever the state is. *)
Theorem get_client_before_initialize (env : Env) (story : StoryRequest.t) (st : state) :
  client (mgr st) = None ->
  Manager.get_client st = (inl (HTTPException 400 "Client not initialized"), st) /\
  serve (send_story env story) st =
    ({| status := 400; body := [("detail", "Client not initialized")] |}, st) /\
  is_client_error (fst (serve (send_story env story) st)) = true /\
  (forall st' : state, snd (Manager.get_client st') = st').
Proof.
  intros Hc. split; [by apply get_client_none|].
  assert (Hs : serve (send_story env story) st =
    ({| status := 400; body := [("detail", "Client not initialized")] |}, st)).
  { unfold send_story, serve, bind. unfold get_client. by rewrite get_client_none. }
  split; [exact Hs|]. split; [by rewrite Hs|]. apply get_client_pure.
Qed.

Lemma get_client_before_initialize_witness :
  Manager.get_client initial_state =
    (inl (HTTPException 400 "Client not initialized"), initial_state).
Proof.
  exact (proj1 (get_client_before_initialize (scripted happy) story_request
                  initial_state eq_refl)).
Defined.

Lemma repeat_disconnect_none (env : Env) (n : nat) (st : state) :
  client (mgr st) = None -> run_ops env (repeat OpDisconnect n) st = st.
Proof.
  intros Hc. induction n as [|n IH]; [done|].
  unfold run_ops in *. simpl. by rewrite disconnect_none.
Qed.

(** C9: with no client stored, [disconnect] returns normally, makes no
    call and leaves the state as it was; so does any number of repeated
    calls. *)
Theorem disconnect_without_client (env : Env) (st : state) (n : nat) :
  client (mgr st) = None ->
  Manager.disconnect env st = (inr tt, st) /\
  run_ops env (repeat OpDisconnect n) st = st.
Proof.
  intros Hc. split; [by apply disconnect_none | by apply repeat_disconnect_none].
Qed.

Lemma disconnect_without_client_witness :
  Manager.disconnect (scripted happy) initial_state = (inr tt, initial_state) /\
  run_ops (scripted happy) (repeat OpDisconnect 3) initial_state = initial_state.
Proof. exact (disconnect_without_client (scripted happy) initial_state 3 eq_refl). Defined.

(** ** Story posting *)

(** What [send_story] does when the authorization query answers [False]:
    the 401 raised inside the [try] is an [Exception], so the handler's own
    [except Exception] catches it and raises the 500 in its place. *)
Lemma send_story_unauthorized (env : Env) (r : StoryRequest.t) (st : state) (c : handle) :
  client (mgr st) = Some c ->
  env (trace st) (IsUserAuthorized c) = inr false ->
  send_story env r st =
    (inl (HTTPException 500
            (str_exn (HTTPException 401 "Unauthorized. Please authenticate first."))),
     record_call (IsUserAuthorized c) true st).
Proof.
  intros Hc Hq. unfold send_story, bind, get_client.
  rewrite (get_client_some st c Hc).
  unfold send_story_body. unfold_m. cbn beta iota. rewrite Hq. reflexivity.
Qed.

Lemma added_record_call (c : call) (ok : bool) (st : state) :
  added st (record_call c ok st) = [{| ev_call := c; ev_ok := ok |}].
Proof.
  unfold added, record_call. simpl.
  rewrite skipn_app, skipn_all, Nat.sub_diag. reflexivity.
Qed.

(** C1: at an initialized but unauthorized client the handler answers
    500; the 401 it raises does not reach the caller. *)
Theorem send_story_unauthorized_is_500 :
  serve (send_story (scripted unauthorized) story_request) (connected_state 0) =
    ({| status := 500;
        body := [("detail", "401: Unauthorized. Please authenticate first.")] |},
     record_call (IsUserAuthorized 0) true (connected_state 0)).
Proof.
  unfold serve. rewrite (send_story_unauthorized _ _ _ 0); reflexivity.
Qed.

(** C4: when the authorization query answers [False] the request is
    refused, and the only call that reached the client is that query:
    neither [upload_file] nor [SendStoryRequest] is invoked. *)
Theorem send_story_unauthorized_no_upload
    (env : Env) (r : StoryRequest.t) (st : state) (c : handle) :
  client (mgr st) = Some c ->
  env (trace st) (IsUserAuthorized c) = inr false ->
  status (fst (serve (send_story env r) st)) <> 200 /\
  trace (snd (serve (send_story env r) st)) =
    (trace st ++ [unauthorized_event c])%list /\
  count_calls is_upload_call (added st (snd (serve (send_story env r) st))) = 0%nat /\
  count_calls is_story_call (added st (snd (serve (send_story env r) st))) = 0%nat.
Proof.
  intros Hc Hq. unfold serve.
  rewrite (send_story_unauthorized env r st c Hc Hq). cbn [fst snd].
  rewrite added_record_call. repeat split. cbn. lia.
Qed.

Lemma send_story_unauthorized_no_upload_witness :
  count_calls is_upload_call
    (added (connected_state 0)
       (snd (serve (send_story (scripted unauthorized) story_request)
               (connected_state 0)))) = 0%nat.
Proof.
  exact (proj1 (proj2 (proj2 (send_story_unauthorized_no_upload
    (scripted unauthorized) story_request (connected_state 0) 0 eq_refl eq_refl)))).
Defined.

(** ** Code verification *)

Lemma verify_otp_sign_in_raises
    (env : Env) (r : OTPVerification.t) (st : state) (c : handle) (e : exn) :
  client (mgr st) = Some c ->
  env (trace st) (sign_in_call c r) = inl e ->
  verify_otp env r st =
    (inl match e with
         | SessionPasswordNeededError _ =>
             HTTPException 401
               "Two-step verification is enabled. Please provide the password."
         | PhoneCodeInvalidError _ => HTTPException 401 "Invalid code provided."
         | _ => HTTPException 500 (str_exn e)
         end,
     record_call (sign_in_call c r) false st).
Proof.
  intros Hc Hs. unfold verify_otp, try_except, bind at 1, get_client.
  rewrite (get_client_some st c Hc). unfold bind, invoke. cbn beta iota zeta.
  unfold sign_in_call in Hs. rewrite Hs. cbn. by destruct e.
Qed.

(** With no client stored, the 400 of [get_client] is raised inside the
    [try] of [verify_otp] and leaves it as a 500. *)
Lemma verify_otp_not_initialized (env : Env) (r : OTPVerification.t) (st : state) :
  client (mgr st) = None ->
  verify_otp env r st =
    (inl (HTTPException 500
            (str_exn (HTTPException 400 "Client not initialized"))), st).
Proof.
  intros Hc. unfold verify_otp, try_except, bind at 1, get_client.
  rewrite (get_client_none st Hc). reflexivity.
Qed.

(** C2: before any [initialize_client], [verify_otp] answers 500, which
    is not a client error. *)
Theorem verify_otp_before_initialize_is_500 :
  serve (verify_otp (scripted happy) otp_request) initial_state =
    ({| status := 500; body := [("detail", "400: Client not initialized")] |},
     initial_state) /\
  is_client_error
    (fst (serve (verify_otp (scripted happy) otp_request) initial_state)) = false.
Proof.
  unfold serve. rewrite verify_otp_not_initialized by reflexivity. by split.
Qed.

(** C3: when [sign_in] raises the invalid-code error the response is the
    401 "Invalid code provided."; when it raises the password-needed error
    the response is the 401 two-step response; the two responses differ and
    neither has status 500. *)
Theorem verify_otp_auth_failures
    (env : Env) (r : OTPVerification.t) (st : state) (c : handle) (e : exn) :
  client (mgr st) = Some c ->
  env (trace st) (sign_in_call c r) = inl e ->
  ((exists msg, e = PhoneCodeInvalidError msg) ->
     fst (serve (verify_otp env r) st) = invalid_code_response) /\
  ((exists msg, e = SessionPasswordNeededError msg) ->
     fst (serve (verify_otp env r) st) = two_factor_response) /\
  invalid_code_response <> two_factor_response /\
  status invalid_code_response <> 500 /\
  status two_factor_response <> 500.
Proof.
  intros Hc Hs. unfold serve.
  rewrite (verify_otp_sign_in_raises env r st c e Hc Hs). cbn [fst].
  split; [intros [msg ->]; reflexivity|].
  split; [intros [msg ->]; reflexivity|].
  split; [discriminate|]. split; cbn; lia.
Qed.

Lemma verify_otp_auth_failures_witness :
  fst (serve (verify_otp (scripted wrong_code) otp_request) (connected_state 0)) =
    invalid_code_response /\
  fst (serve (verify_otp (scripted two_factor) otp_request) (connected_state 0)) =
    two_factor_response.
Proof.
  split.
  - exact (proj1 (verify_otp_auth_failures (scripted wrong_code) otp_request
      (connected_state 0) 0 _ eq_refl eq_refl) (ex_intro _ _ eq_refl)).
  - exact (proj1 (proj2 (verify_otp_auth_failures (scripted two_factor) otp_request
      (connected_state 0) 0 _ eq_refl eq_refl)) (ex_intro _ _ eq_refl)).
Defined.

(** ** Re-initialization *)

Lemma initialize_client_none (env : Env) (i : Z) (a : string) (st : state) :
  client (mgr st) = None ->
  Manager.initialize_client env i a st = open_new env i a st.
Proof.
  intros Hc. unfold open_new, credentials, new_client_call. run_manager.
  rewrite !Hc. simpl.
  destruct (env (trace st) _) as [e|[]]; [reflexivity|].
  by destruct (env _ (Connect _)).
Qed.

Lemma initialize_client_some (env : Env) (i : Z) (a : string) (st : state) (old : handle) :
  client (mgr st) = Some old ->
  Manager.initialize_client env i a st =
    match env (trace st) (Disconnect old) with
    | inl e => (inl e, record_call (Disconnect old) false st)
    | inr _ => open_new env i a (record_call (Disconnect old) true st)
    end.
Proof.
  intros Hc. unfold open_new, credentials, new_client_call. run_manager.
  rewrite !Hc. simpl.
  destruct (env (trace st) (Disconnect old)) as [e|[]]; [reflexivity|]. simpl.
  rewrite ?Hc.
  destruct (env _ (NewTelegramClient _ _ _ _)) as [e|[]]; [reflexivity|].
  by destruct (env _ (Connect _)).
Qed.

Lemma live_after_snoc (evs : list event) (e : event) :
  live_after (evs ++ [e]) = transport_step (live_after evs) e.
Proof. unfold live_after. by rewrite foldl_app. Qed.

Lemma size_at_most_one (X : gset handle) (c : handle) :
  X ⊆ {[c]} -> (size X <= 1)%nat.
Proof. intros HX. apply subseteq_size in HX. by rewrite size_singleton in HX. Qed.

Lemma added_app (st st' : state) (evs : list event) :
  trace st' = (trace st ++ evs)%list -> added st st' = evs.
Proof.
  intros H. unfold added. by rewrite H, skipn_app, skipn_all, Nat.sub_diag.
Qed.

Lemma open_new_trace (env : Env) (i : Z) (a : string) (st : state) :
  let self := length (trace st) in
  exists rest,
    trace (snd (open_new env i a st)) = (trace st ++ rest)%list /\
    (rest = [{| ev_call := new_client_call self i a; ev_ok := false |}] \/
     exists ok, rest = [{| ev_call := new_client_call self i a; ev_ok := true |};
                        {| ev_call := Connect self; ev_ok := ok |}]) /\
    (fst (open_new env i a st) = inr tt ->
       rest = [{| ev_call := new_client_call self i a; ev_ok := true |};
               {| ev_call := Connect self; ev_ok := true |}] /\
       mgr (snd (open_new env i a st)) = credentials (Some self) i a).
Proof.
  unfold open_new. cbn zeta.
  destruct (env (trace st) _) as [e|[]]; cbn [fst snd trace mgr].
  - eexists. split; [reflexivity|]. split; [by left | discriminate].
  - eexists. split; [by rewrite <- app_assoc|].
    split; [right; by eexists|].
    intros Hok. rewrite Hok. by split.
Qed.

(** Only a [connect] that returns opens a transport. *)
Lemma transport_step_bound (live X : gset handle) (e : event) (c : handle) :
  live ⊆ X ∪ {[c]} ->
  (forall c', ev_call e = Connect c' -> c' = c) ->
  transport_step live e ⊆ X ∪ {[c]}.
Proof.
  intros Hl He. unfold transport_step.
  destruct (ev_call e) as [| c' | c' | | | | | | | |]; destruct (ev_ok e); try done.
  - rewrite (He c' eq_refl). set_solver.
  - set_solver.
Qed.

Lemma live_after_app_bound (t evs : list event) (X : gset handle) (c : handle) :
  live_after t ⊆ X ->
  Forall (fun e => forall c', ev_call e = Connect c' -> c' = c) evs ->
  live_after (t ++ evs) ⊆ X ∪ {[c]}.
Proof.
  intros Ht. induction evs as [|e evs IH] using rev_ind; intros Hevs.
  - rewrite app_nil_r. set_solver.
  - apply Forall_app in Hevs as [Hevs He]. rewrite app_assoc, live_after_snoc.
    apply transport_step_bound; [by apply IH|]. by inversion He.
Qed.

(** C5: when a client is already stored, the first call of
    [initialize_client] is the [disconnect] of that client; the new client
    is constructed and connected only afterwards, and not at all when the
    [disconnect] raised.  If no transport other than the stored client's is
    open beforehand, then at every moment of the run at most one transport
    is open. *)
Theorem initialize_client_close_then_open
    (env : Env) (i : Z) (a : string) (st : state) (old : handle) :
  client (mgr st) = Some old ->
  let st' := snd (Manager.initialize_client env i a st) in
  let self := S (length (trace st)) in
  (exists ok rest,
     added st st' = {| ev_call := Disconnect old; ev_ok := ok |} :: rest /\
     (ok = false -> rest = []) /\
     Forall (opens_only self i a) rest /\
     (fst (Manager.initialize_client env i a st) = inr tt ->
        ok = true /\
        rest = [{| ev_call := new_client_call self i a; ev_ok := true |};
                {| ev_call := Connect self; ev_ok := true |}] /\
        client (mgr st') = Some self)) /\
  (live_after (trace st) ⊆ {[old]} ->
   forall pre, pre `prefix_of` added st st' ->
     (size (live_after (trace st ++ pre)) <= 1)%nat).
Proof.
  intros Hc st' self. subst st'.
  rewrite (initialize_client_some env i a st old Hc).
  destruct (env (trace st) (Disconnect old)) as [e|[]].
  - (* the disconnect raised *)
    cbn [fst snd]. rewrite added_record_call. split.
    + exists false, []. repeat split; [constructor | discriminate..].
    + intros Hlive pre Hpre. apply (size_at_most_one _ old).
      destruct pre as [|e' pre]; [by rewrite app_nil_r|].
      pose proof (prefix_cons_inv_1 _ _ _ _ Hpre) as ->.
      apply prefix_cons_inv_2, prefix_nil_inv in Hpre as ->.
      rewrite live_after_snoc. unfold transport_step. simpl. done.
  - (* the disconnect returned *)
    set (st1 := record_call (Disconnect old) true st).
    destruct (open_new_trace env i a st1) as (rest & Htr & Hshape & Hok).
    assert (Hlen : length (trace st1) = self).
    { unfold st1, record_call. simpl. rewrite length_app. simpl. lia. }
    rewrite Hlen in Hshape, Hok.
    assert (Hadd : added st (snd (open_new env i a st1)) =
                   {| ev_call := Disconnect old; ev_ok := true |} :: rest).
    { apply added_app. rewrite Htr. unfold st1, record_call. simpl.
      by rewrite <- app_assoc. }
    assert (Hopens : Forall (opens_only self i a) rest).
    { destruct Hshape as [-> | [ok ->]]; repeat constructor; by right. }
    rewrite Hadd. split.
    + exists true, rest. split; [done|]. split; [discriminate|]. split; [done|].
      intros Hr. destruct (Hok Hr) as [-> Hcl]. by rewrite Hcl.
    + intros Hlive pre Hpre.
      destruct pre as [|e' pre]; [rewrite app_nil_r; by apply (size_at_most_one _ old)|].
      pose proof (prefix_cons_inv_1 _ _ _ _ Hpre) as ->.
      apply prefix_cons_inv_2 in Hpre. destruct Hpre as [suf ->].
      apply Forall_app in Hopens as [Hopens _].
      apply (size_at_most_one _ self).
      replace (trace st ++ {| ev_call := Disconnect old; ev_ok := true |} :: pre)%list
        with ((trace st ++ [{| ev_call := Disconnect old; ev_ok := true |}]) ++ pre)%list
        by (by rewrite <- app_assoc).
      assert (Hempty : live_after (trace st ++ [{| ev_call := Disconnect old; ev_ok := true |}]) ⊆ ∅).
      { rewrite live_after_snoc. unfold transport_step. simpl. set_solver. }
      pose proof (live_after_app_bound _ pre ∅ self Hempty) as Hb.
      rewrite (left_id_L ∅ (∪)) in Hb. apply Hb.
      eapply Forall_impl; [exact Hopens|].
      intros e' [He | He] c' Hc'; rewrite He in Hc'; [discriminate | congruence].
Qed.

Lemma initialize_client_close_then_open_witness :
  (size (live_after (trace (connected_state 0) ++
           added (connected_state 0)
             (snd (Manager.initialize_client (scripted happy) 123 "abc"
                     (connected_state 0))))) <= 1)%nat.
Proof.
  apply (proj2 (initialize_client_close_then_open (scripted happy) 123 "abc"
                  (connected_state 0) 0 eq_refl)).
  - unfold live_after, transport_step. simpl. set_solver.
  - reflexivity.
Defined.

(** ** The stored client is never cleared *)

Lemma open_new_keeps_client (env : Env) (i : Z) (a : string) (st : state) :
  is_Some (client (mgr st)) -> is_Some (client (mgr (snd (open_new env i a st)))).
Proof. intros Hs. unfold open_new. cbn zeta. by destruct (env _ _). Qed.

Lemma initialize_client_keeps_client (env : Env) (i : Z) (a : string) (st : state) :
  is_Some (client (mgr st)) ->
  is_Some (client (mgr (snd (Manager.initialize_client env i a st)))).
Proof.
  intros [old Hc]. rewrite (initialize_client_some env i a st old Hc).
  destruct (env _ _).
  - simpl. by rewrite Hc.
  - apply open_new_keeps_client. simpl. by rewrite Hc.
Qed.

(** An [initialize_client] that returns has stored a client bound to the
    given credentials. *)
Lemma initialize_client_returns (env : Env) (i : Z) (a : string) (st : state) :
  fst (Manager.initialize_client env i a st) = inr tt ->
  exists c, mgr (snd (Manager.initialize_client env i a st)) = credentials (Some c) i a.
Proof.
  destruct (client (mgr st)) as [old|] eqn:Hc.
  - rewrite (initialize_client_some env i a st old Hc).
    destruct (env (trace st) (Disconnect old)) as [e|[]]; [discriminate|].
    intros Hr.
    destruct (open_new_trace env i a (record_call (Disconnect old) true st))
      as (rest & _ & _ & Hok).
    destruct (Hok Hr) as [_ ->]. by eexists.
  - rewrite (initialize_client_none env i a st Hc). intros Hr.
    destruct (open_new_trace env i a st) as (rest & _ & _ & Hok).
    destruct (Hok Hr) as [_ ->]. by eexists.
Qed.

Lemma disconnect_keeps_manager (env : Env) (st : state) :
  mgr (snd (Manager.disconnect env st)) = mgr st.
Proof. run_manager. destruct (client (mgr st)); [|done]. by destruct (env _ _). Qed.

Lemma upload_image_keeps_manager (env : Env) (r : UploadFile.t) (st : state) :
  mgr (snd (upload_image env r st)) = mgr st.
Proof.
  unfold upload_image. unfold_m.
  destruct (UploadFile.filename r); [|done]. cbn beta iota zeta.
  destruct (env (trace st) Uuid4); [done|]. cbn [fst snd mgr trace].
  by destruct (env _ (CopyToFile _ _)).
Qed.

Lemma verify_otp_keeps_manager (env : Env) (r : OTPVerification.t) (st : state) :
  mgr (snd (verify_otp env r st)) = mgr st.
Proof.
  destruct (client (mgr st)) as [c|] eqn:Hc.
  - destruct (env (trace st) (sign_in_call c r)) as [e|[]] eqn:Hs.
    + by rewrite (verify_otp_sign_in_raises env r st c e Hc Hs).
    + unfold verify_otp, try_except, bind at 1, get_client.
      rewrite (get_client_some st c Hc). unfold bind, invoke. cbn beta iota zeta.
      unfold sign_in_call in Hs. rewrite Hs. cbn beta iota zeta.
      destruct (env _ (GetMe c)) as [e|[u|]]; [by destruct e| done | done].
  - by rewrite (verify_otp_not_initialized env r st Hc).
Qed.

Lemma send_story_keeps_manager (env : Env) (r : StoryRequest.t) (st : state) :
  mgr (snd (send_story env r st)) = mgr st.
Proof.
  unfold send_story, bind, get_client.
  destruct (client (mgr st)) as [c|] eqn:Hc.
  - rewrite (get_client_some st c Hc). unfold send_story_body. unfold_m.
    cbn beta iota zeta.
    destruct (env (trace st) (IsUserAuthorized c)) as [e|[|]]; [done| |done].
    cbn beta iota zeta. cbn [negb].
    destruct (env _ (ClientUploadFile _ _)) as [e|f]; [done|]. cbn beta iota zeta.
    by destruct (env _ (InvokeSendStory _ _ _ _)).
  - by rewrite (get_client_none st Hc).
Qed.

(** ** Requesting a code *)

Lemma generate_otp_unfold (env : Env) (r : PhoneNumber.t) (st : state) :
  generate_otp env r st =
    match initialize_for env r st with
    | (inl e, st1) => (inl (HTTPException 500 (str_exn e)), st1)
    | (inr _, st1) =>
        match client (mgr st1) with
        | None =>
            (inl (HTTPException 500
                    (str_exn (HTTPException 400 "Client not initialized"))), st1)
        | Some c =>
            match env (trace st1) (code_request c r) with
            | inl e =>
                (inl (HTTPException 500 (str_exn e)),
                 record_call (code_request c r) false st1)
            | inr sent =>
                (inr [("phone_code_hash", phone_code_hash sent)],
                 record_call (code_request c r) true st1)
            end
        end
    end.
Proof.
  unfold generate_otp, initialize_for, try_except, bind at 1.
  destruct (Manager.initialize_client env _ _ st) as [[e|[]] st1]; [reflexivity|].
  unfold bind at 1, get_client.
  destruct (client (mgr st1)) as [c|] eqn:Hc.
  - rewrite (get_client_some st1 c Hc). unfold bind, invoke, ret, code_request.
    cbn beta iota zeta. by destruct (env _ _).
  - by rewrite (get_client_none st1 Hc).
Qed.

Lemma added_trace (st : state) (m : TelegramClientManager) (evs : list event) :
  added st {| mgr := m; trace := trace st ++ evs |} = evs.
Proof. by apply added_app. Qed.

(** An event of a concrete list that is a code request. *)
Ltac code_request_among Hin :=
  rewrite <- ?app_assoc in Hin; rewrite added_trace in Hin; cbn [app] in Hin;
  repeat (apply elem_of_cons in Hin as [-> | Hin]);
  [.. | by apply elem_of_nil in Hin];
  try (intros Hq; cbn in Hq; discriminate Hq).

Ltac simpl_answer :=
  cbn [fst snd respond status succeeded client credentials mgr trace].

(** C8: a [generate_otp] that answers 200 has made these calls, in this
    order and all returning: [disconnect] on the previously stored client
    (if there was one), the construction of a new client on the session
    file with the request's application id and secret, [connect] on the new
    client, and [send_code_request] on it for the request's phone number
    with [force_sms=True]; the new client is then stored with those
    credentials and the body carries the [phone_code_hash] that the client
    library answered.  A code is never requested in any other way: whenever
    a code request was made, it was this one, made right after those calls.
    When each of these calls returns, the answer is 200. *)
Theorem generate_otp_sequence (env : Env) (r : PhoneNumber.t) (st : state) :
  let i := PhoneNumber.app_id r in
  let a := PhoneNumber.app_hash r in
  let closed := (trace st ++ teardown_events st)%list in
  let self := length closed in
  let built :=
    (closed ++ [{| ev_call := NewTelegramClient self session_file_path i a;
                   ev_ok := true |}])%list in
  let opened := (built ++ [{| ev_call := Connect self; ev_ok := true |}])%list in
  let request := SendCodeRequest self (PhoneNumber.phone r) true in
  (status (fst (serve (generate_otp env r) st)) = 200 ->
     exists sent,
       env opened request = inr sent /\
       serve (generate_otp env r) st =
         ({| status := 200; body := [("phone_code_hash", phone_code_hash sent)] |},
          {| mgr := credentials (Some self) i a;
             trace := opened ++ [{| ev_call := request; ev_ok := true |}] |})) /\
  (forall e, e ∈ added st (snd (serve (generate_otp env r) st)) ->
     is_code_request (ev_call e) = true ->
     ev_call e = request /\
     trace (snd (serve (generate_otp env r) st)) = (opened ++ [e])%list) /\
  ((forall old, client (mgr st) = Some old -> env (trace st) (Disconnect old) = inr tt) ->
   env closed (NewTelegramClient self session_file_path i a) = inr tt ->
   env built (Connect self) = inr tt ->
   forall sent, env opened request = inr sent ->
   status (fst (serve (generate_otp env r) st)) = 200).
Proof.
  cbn zeta. unfold serve. rewrite generate_otp_unfold.
  unfold initialize_for, teardown_events, code_request.
  destruct (client (mgr st)) as [old|] eqn:Hc.
  - rewrite (initialize_client_some env _ _ st old Hc).
    destruct (env (trace st) (Disconnect old)) as [e|[]] eqn:Hd.
    { cbn [fst snd respond status].
      rewrite (added_record_call (Disconnect old) false st).
      split; [intros H200; discriminate H200|]. split.
      - intros e' Hin. apply list_elem_of_singleton in Hin as ->. discriminate.
      - intros Hall. specialize (Hall old eq_refl). rewrite Hd in Hall. discriminate. }
    unfold open_new, record_call, new_client_call. cbn zeta.
    cbn [trace mgr succeeded].
    destruct (env _ (NewTelegramClient _ _ _ _)) as [e|[]]; simpl_answer.
    { split; [intros H200; discriminate H200|]. split; [intros e' Hin; code_request_among Hin | done]. }
    destruct (env _ (Connect _)) as [e|[]]; simpl_answer.
    { split; [intros H200; discriminate H200|]. split; [intros e' Hin; code_request_among Hin | done]. }
    destruct (env _ (SendCodeRequest _ _ _)) as [e|sent] eqn:Hreq; simpl_answer.
    { split; [intros H200; discriminate H200|]. split; [|done].
      intros e' Hin. code_request_among Hin. by intros _. }
    split; [intros _; by exists sent|]. split; [|done].
    intros e' Hin. code_request_among Hin. by intros _.
  - rewrite (initialize_client_none env _ _ st Hc).
    unfold open_new, record_call, new_client_call. cbn zeta.
    cbn [trace mgr succeeded]. rewrite !app_nil_r.
    destruct (env _ (NewTelegramClient _ _ _ _)) as [e|[]]; simpl_answer.
    { split; [intros H200; discriminate H200|]. split; [intros e' Hin; code_request_among Hin | done]. }
    destruct (env _ (Connect _)) as [e|[]]; simpl_answer.
    { split; [intros H200; discriminate H200|]. split; [intros e' Hin; code_request_among Hin | done]. }
    destruct (env _ (SendCodeRequest _ _ _)) as [e|sent] eqn:Hreq; simpl_answer.
    { split; [intros H200; discriminate H200|]. split; [|done].
      intros e' Hin. code_request_among Hin. by intros _. }
    split; [intros _; by exists sent|]. split; [|done].
    intros e' Hin. code_request_among Hin. by intros _.
Qed.

Lemma generate_otp_sequence_witness :
  trace (snd (serve (generate_otp (scripted happy) phone_request) (connected_state 0))) =
    (trace (connected_state 0) ++
     [{| ev_call := Disconnect 0; ev_ok := true |};
      {| ev_call := NewTelegramClient 3 session_file_path 123 "abc"; ev_ok := true |};
      {| ev_call := Connect 3; ev_ok := true |};
      {| ev_call := SendCodeRequest 3 "+15550001" true; ev_ok := true |}])%list.
Proof.
  destruct (proj1 (generate_otp_sequence (scripted happy) phone_request
                     (connected_state 0)) eq_refl) as (sent & _ & H).
  rewrite H. reflexivity.
Defined.

Lemma generate_otp_keeps_client (env : Env) (r : PhoneNumber.t) (st : state) :
  is_Some (client (mgr st)) -> is_Some (client (mgr (snd (generate_otp env r st)))).
Proof.
  intros Hs. rewrite generate_otp_unfold.
  pose proof (initialize_client_keeps_client env (PhoneNumber.app_id r)
                (PhoneNumber.app_hash r) st Hs) as H.
  unfold initialize_for.
  destruct (Manager.initialize_client env _ _ st) as [[e|[]] st1]; cbn [fst snd] in *.
  - done.
  - destruct (client (mgr st1)) as [c|] eqn:Hc; [|by destruct H].
    destruct (env _ _); simpl; by rewrite Hc.
Qed.

Lemma run_op_keeps_client (env : Env) (o : op) (st : state) :
  is_Some (client (mgr st)) -> is_Some (client (mgr (run_op env o st))).
Proof.
  intros Hs. destruct o; simpl.
  - by apply initialize_client_keeps_client.
  - by rewrite get_client_pure.
  - by rewrite disconnect_keeps_manager.
  - by apply generate_otp_keeps_client.
  - by rewrite verify_otp_keeps_manager.
  - by rewrite send_story_keeps_manager.
  - by rewrite upload_image_keeps_manager.
Qed.

Lemma run_ops_keeps_client (env : Env) (ops : list op) (st : state) :
  is_Some (client (mgr st)) -> is_Some (client (mgr (run_ops env ops st))).
Proof.
  revert st. induction ops as [|o ops IH]; intros st Hs; [done|].
  unfold run_ops in *. simpl. apply IH. by apply run_op_keeps_client.
Qed.

(** C10: after an [initialize_client] that returned, [disconnect] leaves
    the stored client in place: [get_client] still returns it, although its
    transport is closed when the [disconnect] returned; and no later
    sequence of manager operations and requests brings the manager back to
    the state without a client. *)
Theorem client_survives_disconnect (env : Env) (i : Z) (a : string) (st : state) :
  fst (Manager.initialize_client env i a st) = inr tt ->
  let st1 := snd (Manager.initialize_client env i a st) in
  let st2 := snd (Manager.disconnect env st1) in
  exists c,
    client (mgr st1) = Some c /\
    Manager.get_client st2 = (inr c, st2) /\
    (fst (Manager.disconnect env st1) = inr tt -> c ∉ live_after (trace st2)) /\
    (forall ops, is_Some (client (mgr (run_ops env ops st2)))).
Proof.
  intros Hr st1 st2.
  destruct (initialize_client_returns env i a st Hr) as [c Hm]. fold st1 in Hm.
  assert (Hc : client (mgr st1) = Some c) by (by rewrite Hm).
  exists c. split; [done|].
  assert (Hc2 : client (mgr st2) = Some c).
  { unfold st2. by rewrite disconnect_keeps_manager. }
  split; [by apply get_client_some|]. split.
  - unfold st2. rewrite (disconnect_some env st1 c Hc). cbn [fst snd].
    intros Hd. rewrite Hd. unfold record_call. cbn [trace succeeded].
    rewrite live_after_snoc. unfold transport_step. simpl. set_solver.
  - intros ops. apply run_ops_keeps_client. by rewrite Hc2.
Qed.

Lemma client_survives_disconnect_witness :
  exists c,
    Manager.get_client
      (snd (Manager.disconnect (scripted happy)
              (snd (Manager.initialize_client (scripted happy) 123 "abc" initial_state))))
    = (inr c,
       snd (Manager.disconnect (scripted happy)
              (snd (Manager.initialize_client (scripted happy) 123 "abc" initial_state)))).
Proof.
  destruct (client_survives_disconnect (scripted happy) 123 "abc" initial_state eq_refl)
    as (c & _ & Hg & _).
  exists c. exact Hg.
Defined.

(** ** Uploads *)

Lemma take_drop (n : nat) (p : string) : os_path.take n p +:+ os_path.drop n p = p.
Proof.
  revert p. induction n as [|n IH]; intros [|c p]; try reflexivity.
  simpl. change (String c (os_path.take n p) +:+ os_path.drop n p)
    with (String c (os_path.take n p +:+ os_path.drop n p)). by rewrite IH.
Qed.

Lemma append_empty_r (p : string) : p +:+ "" = p.
Proof.
  induction p as [|c p IH]; [reflexivity|].
  change (String c p +:+ "") with (String c (p +:+ "")). by rewrite IH.
Qed.

Lemma skip_leading_dots_app (p : string) (f todo d : nat) :
  fst (os_path.skip_leading_dots p f todo d) +:+
  snd (os_path.skip_leading_dots p f todo d) = p.
Proof.
  revert f. induction todo as [|todo IH]; intros f; simpl.
  - apply append_empty_r.
  - destruct (negb _); simpl; [apply take_drop | apply IH].
Qed.

(** [splitext] splits: root and extension concatenate to the name. *)
Lemma splitext_app (name : string) : base_name name +:+ file_extension name = name.
Proof.
  unfold base_name, file_extension, os_path.splitext. cbn zeta.
  destruct (_ >? _)%Z; [apply skip_leading_dots_app | apply append_empty_r].
Qed.

Lemma length_append (a b : string) :
  String.length (a +:+ b) = (String.length a + String.length b)%nat.
Proof.
  induction a as [|c a IH]; [reflexivity|].
  change (String c a +:+ b) with (String c (a +:+ b)). simpl. by rewrite IH.
Qed.

Lemma append_inj_l (a b e : string) : a +:+ e = b +:+ e -> a = b.
Proof.
  revert b. induction a as [|c a IH]; intros [|c' b] H.
  - reflexivity.
  - apply (f_equal String.length) in H. rewrite !length_append in H.
    simpl in H. lia.
  - apply (f_equal String.length) in H. rewrite !length_append in H.
    simpl in H. lia.
  - change (String c (a +:+ e) = String c' (b +:+ e)) in H.
    injection H as -> H. f_equal. by apply IH.
Qed.

Lemma upload_image_returns (env : Env) (file : UploadFile.t) (st : state) (b : json) :
  fst (upload_image env file st) = inr b ->
  exists name uuid,
    UploadFile.filename file = Some name /\
    env (trace st) Uuid4 = inr uuid /\
    b = upload_body uuid (file_extension name).
Proof.
  unfold upload_image. unfold_m.
  destruct (UploadFile.filename file) as [name|]; [|discriminate].
  cbn beta iota zeta.
  destruct (env (trace st) Uuid4) as [e|uuid]; [discriminate|]. cbn beta iota zeta.
  destruct (env _ (CopyToFile _ _)) as [e|[]]; [discriminate|]. cbn [fst].
  intros [= <-]. by exists name, uuid.
Qed.

(** An upload succeeds whenever the file has a name, the identifier is
    generated and the file is written. *)
Lemma upload_image_succeeds
    (env : Env) (file : UploadFile.t) (st : state) (name uuid : string) :
  UploadFile.filename file = Some name ->
  env (trace st) Uuid4 = inr uuid ->
  env (trace (record_call Uuid4 true st))
      (CopyToFile (os_path.join UPLOAD_DIR (uuid +:+ file_extension name))
         (UploadFile.file file)) = inr tt ->
  fst (upload_image env file st) = inr (upload_body uuid (file_extension name)).
Proof.
  intros Hn Hu Hw. unfold upload_image. unfold_m. rewrite Hn. cbn beta iota zeta.
  rewrite Hu. cbn beta iota zeta. cbn [succeeded trace mgr].
  unfold record_call, file_extension in Hw. cbn [trace] in Hw.
  unfold file_extension. by rewrite Hw.
Qed.

(** C6: a successful upload returns [/uploads/<uuid><ext>] with [<uuid>]
    the generated identifier and [<ext>] the extension of the original
    name; two uploads of the same name with different identifiers return
    different paths; the generated identifier stands where the original
    base name stood, so with a fresh identifier (one that is not the base
    name itself) the path is never [/uploads/<original name>]; the base
    name is no input of the path at all (names with equal extensions give
    equal paths under equal identifiers). *)
Theorem upload_image_paths
    (env1 env2 : Env) (f1 f2 : UploadFile.t) (st1 st2 : state) (b1 b2 : json) :
  fst (upload_image env1 f1 st1) = inr b1 ->
  fst (upload_image env2 f2 st2) = inr b2 ->
  exists n1 n2 u1 u2,
    UploadFile.filename f1 = Some n1 /\ UploadFile.filename f2 = Some n2 /\
    env1 (trace st1) Uuid4 = inr u1 /\ env2 (trace st2) Uuid4 = inr u2 /\
    json_get "file_uri" b1 = Some ("/uploads/" +:+ (u1 +:+ file_extension n1)) /\
    json_get "file_uri" b2 = Some ("/uploads/" +:+ (u2 +:+ file_extension n2)) /\
    (n1 = n2 -> u1 <> u2 -> json_get "file_uri" b1 <> json_get "file_uri" b2) /\
    (u1 <> base_name n1 ->
       json_get "file_uri" b1 <> Some ("/uploads/" +:+ n1)) /\
    (u2 <> base_name n2 ->
       json_get "file_uri" b2 <> Some ("/uploads/" +:+ n2)) /\
    (file_extension n1 = file_extension n2 -> u1 = u2 ->
       json_get "file_uri" b1 = json_get "file_uri" b2).
Proof.
  intros H1 H2.
  destruct (upload_image_returns env1 f1 st1 b1 H1) as (n1 & u1 & Hn1 & Hu1 & ->).
  destruct (upload_image_returns env2 f2 st2 b2 H2) as (n2 & u2 & Hn2 & Hu2 & ->).
  exists n1, n2, u1, u2. repeat (split; [done|]).
  unfold upload_body. cbn [json_get]. rewrite bool_decide_eq_true_2 by done.
  split; [|split; [|split]].
  - intros <- Hne Heq. apply Hne.
    apply (inj Some), (inj (String.app "/uploads/")) in Heq.
    by apply append_inj_l in Heq.
  - intros Hne Heq. apply Hne.
    apply (inj Some), (inj (String.app "/uploads/")) in Heq.
    rewrite <- (splitext_app n1) in Heq at 2. by apply append_inj_l in Heq.
  - intros Hne Heq. apply Hne.
    apply (inj Some), (inj (String.app "/uploads/")) in Heq.
    rewrite <- (splitext_app n2) in Heq at 2. by apply append_inj_l in Heq.
  - by intros -> ->.
Qed.

Lemma upload_image_paths_witness :
  json_get "file_uri"
    [("file_uri", "/uploads/1b9d6bcd-bbfd-4b2d-9b5d-ab8dfbbd4bed.jpg");
     ("message", "Image uploaded successfully")] <>
  json_get "file_uri"
    [("file_uri", "/uploads/6ec0bd7f-11c0-43da-975e-2a8ad9ebae0b.jpg");
     ("message", "Image uploaded successfully")] /\
  json_get "file_uri"
    [("file_uri", "/uploads/1b9d6bcd-bbfd-4b2d-9b5d-ab8dfbbd4bed.jpg");
     ("message", "Image uploaded successfully")] <> Some "/uploads/photo.jpg".
Proof.
  destruct (upload_image_paths (scripted happy) (scripted happy)
              (photo "photo.jpg") (photo "photo.jpg") initial_state
              (snd (upload_image (scripted happy) (photo "photo.jpg") initial_state))
              _ _ eq_refl eq_refl)
    as (n1 & n2 & u1 & u2 & [= <-] & [= <-] & [= <-] & [= <-] & _ & _ & Hd & Hn & _).
  split; [apply Hd; [reflexivity | discriminate] | apply Hn; discriminate].
Defined.

(** ** A complete run

    [initialize(123, "abc")], a code request for [+15550001] answered with
    the token [T1], and the verification of code [00000] under that token
    against a client library that accepts it. *)
Example request_then_verify :
  fst (serve (generate_otp (scripted happy) phone_request) initial_state) =
    {| status := 200; body := [("phone_code_hash", "T1")] |} /\
  fst (serve (verify_otp (scripted happy) otp_request)
         (snd (serve (generate_otp (scripted happy) phone_request) initial_state))) =
    {| status := 200; body := [("message", "Authenticated as Ada")] |}.
Proof. split; reflexivity. Qed.

(** * Further properties of the manager and the handlers *)

Lemma live_after_record (c : call) (ok : bool) (st : state) :
  live_after (trace (record_call c ok st)) =
    transport_step (live_after (trace st)) {| ev_call := c; ev_ok := ok |}.
Proof. unfold record_call. cbn [trace]. apply live_after_snoc. Qed.

Lemma live_after_record_other (c : call) (ok : bool) (st : state) :
  is_transport_call c = false ->
  live_after (trace (record_call c ok st)) = live_after (trace st).
Proof.
  intros Hc. rewrite live_after_record. unfold transport_step. cbn [ev_call ev_ok].
  by destruct c.
Qed.

Lemma mgr_record_call (c : call) (ok : bool) (st : state) :
  mgr (record_call c ok st) = mgr st.
Proof. reflexivity. Qed.

(** ** [initialize_client], case by case *)

Lemma open_new_unfold (env : Env) (i : Z) (a : string) (st : state) :
  let self := length (trace st) in
  let st1 := record_call (new_client_call self i a) true st in
  open_new env i a st =
    match env (trace st) (new_client_call self i a) with
    | inl e =>
        (inl e, {| mgr := credentials (client (mgr st)) i a;
                   trace := trace (record_call (new_client_call self i a) false st) |})
    | inr _ =>
        (env (trace st1) (Connect self),
         {| mgr := credentials (Some self) i a;
            trace := trace (record_call (Connect self)
                              (succeeded (env (trace st1) (Connect self))) st1) |})
    end.
Proof. reflexivity. Qed.

(** X1: with no client stored, [initialize_client] calls no [disconnect]:
    it constructs the client and, if the constructor returned, connects it;
    when it returns, exactly these two calls were made and [get_client]
    returns the new client. *)
Theorem initialize_client_first (env : Env) (i : Z) (a : string) (st : state) :
  client (mgr st) = None ->
  let st' := snd (Manager.initialize_client env i a st) in
  let self := length (trace st) in
  count_calls is_disconnect_call (added st st') = 0%nat /\
  (added st st' = [{| ev_call := new_client_call self i a; ev_ok := false |}] \/
   exists ok, added st st' = [{| ev_call := new_client_call self i a; ev_ok := true |};
                              {| ev_call := Connect self; ev_ok := ok |}]) /\
  (fst (Manager.initialize_client env i a st) = inr tt ->
     added st st' = [{| ev_call := new_client_call self i a; ev_ok := true |};
                     {| ev_call := Connect self; ev_ok := true |}] /\
     Manager.get_client st' = (inr self, st')).
Proof.
  intros Hc st' self. subst st'. rewrite (initialize_client_none env i a st Hc).
  destruct (open_new_trace env i a st) as (rest & Htr & Hshape & Hok).
  rewrite (added_app _ _ rest Htr). fold self in Hshape, Hok.
  split; [|split].
  - destruct Hshape as [-> | [ok ->]]; reflexivity.
  - destruct Hshape as [-> | [ok ->]]; [by left | right; by exists ok].
  - intros Hr. destruct (Hok Hr) as [-> Hm]. split; [done|].
    apply get_client_some. by rewrite Hm.
Qed.

Lemma initialize_client_first_witness :
  Manager.get_client (snd (Manager.initialize_client (scripted happy) 123 "abc" initial_state)) =
    (inr 0%nat, snd (Manager.initialize_client (scripted happy) 123 "abc" initial_state)).
Proof.
  exact (proj2 (proj2 (proj2 (initialize_client_first (scripted happy) 123 "abc"
    initial_state eq_refl)) eq_refl)).
Defined.

Lemma initialize_client_returns_trace (env : Env) (i : Z) (a : string) (st : state) :
  fst (Manager.initialize_client env i a st) = inr tt ->
  exists c pre,
    mgr (snd (Manager.initialize_client env i a st)) = credentials (Some c) i a /\
    trace (snd (Manager.initialize_client env i a st)) =
      (pre ++ [{| ev_call := Connect c; ev_ok := true |}])%list.
Proof.
  assert (Hopen : forall st0, fst (open_new env i a st0) = inr tt ->
    exists c pre, mgr (snd (open_new env i a st0)) = credentials (Some c) i a /\
      trace (snd (open_new env i a st0)) =
        (pre ++ [{| ev_call := Connect c; ev_ok := true |}])%list).
  { intros st0 Hr. destruct (open_new_trace env i a st0) as (rest & Htr & _ & Hok).
    destruct (Hok Hr) as [-> Hm].
    exists (length (trace st0)),
      (trace st0 ++ [{| ev_call := new_client_call (length (trace st0)) i a;
                        ev_ok := true |}])%list.
    split; [exact Hm|]. rewrite Htr. by rewrite <- app_assoc. }
  destruct (client (mgr st)) as [old|] eqn:Hc.
  - rewrite (initialize_client_some env i a st old Hc).
    destruct (env (trace st) (Disconnect old)) as [e|[]]; [discriminate|]. apply Hopen.
  - rewrite (initialize_client_none env i a st Hc). apply Hopen.
Qed.

(** X2: whatever the state before, an [initialize_client] that returns
    leaves a client that [get_client] returns, stored with the given
    credentials, whose [connect] was the last call made and returned: its
    transport is open. *)
Theorem initialize_client_usable (env : Env) (i : Z) (a : string) (st : state) :
  fst (Manager.initialize_client env i a st) = inr tt ->
  let st' := snd (Manager.initialize_client env i a st) in
  exists c,
    mgr st' = credentials (Some c) i a /\
    Manager.get_client st' = (inr c, st') /\
    last (trace st') = Some {| ev_call := Connect c; ev_ok := true |} /\
    c ∈ live_after (trace st').
Proof.
  intros Hr st'. destruct (initialize_client_returns_trace env i a st Hr)
    as (c & pre & Hm & Htr). fold st' in Hm, Htr.
  exists c. split; [done|]. split; [apply get_client_some; by rewrite Hm|].
  rewrite Htr. split; [apply last_snoc|].
  rewrite live_after_snoc. unfold transport_step. cbn [ev_call ev_ok]. set_solver.
Qed.

Lemma initialize_client_usable_witness :
  exists c : handle,
    c ∈ live_after
          (trace (snd (Manager.initialize_client (scripted happy) 5 "s" (connected_state 0)))).
Proof.
  destruct (initialize_client_usable (scripted happy) 5 "s" (connected_state 0) eq_refl)
    as (c & _ & _ & _ & Hl).
  exists c. exact Hl.
Defined.

(** X3: when the [disconnect] of the stored client raises,
    [initialize_client] raises the same exception at once: nothing is
    constructed, and client, application id and secret stay as they were. *)
Theorem initialize_client_disconnect_raises
    (env : Env) (i : Z) (a : string) (st : state) (old : handle) (e : exn) :
  client (mgr st) = Some old ->
  env (trace st) (Disconnect old) = inl e ->
  let st' := snd (Manager.initialize_client env i a st) in
  fst (Manager.initialize_client env i a st) = inl e /\
  mgr st' = mgr st /\
  added st st' = [{| ev_call := Disconnect old; ev_ok := false |}] /\
  Manager.get_client st' = (inr old, st').
Proof.
  intros Hc He st'. subst st'. rewrite (initialize_client_some env i a st old Hc), He.
  cbn [fst snd]. rewrite added_record_call. repeat split.
  by apply get_client_some.
Qed.

Lemma initialize_client_disconnect_raises_witness :
  mgr (snd (Manager.initialize_client (failing is_disconnect_call) 5 "s" (connected_state 0)))
  = mgr (connected_state 0).
Proof.
  exact (proj1 (proj2 (initialize_client_disconnect_raises (failing is_disconnect_call)
    5 "s" (connected_state 0) 0 _ eq_refl eq_refl))).
Defined.

(** X4: when the stored client was disconnected and the constructor of
    the new one raises, the manager is left with the new application id and
    secret but still holding the previous client, which [get_client] keeps
    returning although its transport is closed. *)
Theorem initialize_client_constructor_raises
    (env : Env) (i : Z) (a : string) (st : state) (old : handle) (e : exn) :
  client (mgr st) = Some old ->
  env (trace st) (Disconnect old) = inr tt ->
  env (trace (record_call (Disconnect old) true st))
      (new_client_call (S (length (trace st))) i a) = inl e ->
  let st' := snd (Manager.initialize_client env i a st) in
  fst (Manager.initialize_client env i a st) = inl e /\
  mgr st' = credentials (Some old) i a /\
  Manager.get_client st' = (inr old, st') /\
  old ∉ live_after (trace st').
Proof.
  intros Hc Hd Hn st'. subst st'.
  rewrite (initialize_client_some env i a st old Hc), Hd.
  assert (Hlen : length (trace (record_call (Disconnect old) true st)) = S (length (trace st))).
  { unfold record_call. cbn [trace]. rewrite length_app. simpl. lia. }
  rewrite open_new_unfold. cbn zeta. rewrite Hlen, Hn. cbn [fst snd mgr].
  rewrite !mgr_record_call, Hc.
  split; [done|]. split; [done|]. split.
  - by apply get_client_some.
  - cbn [trace]. rewrite live_after_record_other by done.
    rewrite live_after_record. unfold transport_step. cbn [ev_call ev_ok]. set_solver.
Qed.

Lemma initialize_client_constructor_raises_witness :
  mgr (snd (Manager.initialize_client (failing is_new_client_call) 5 "s" (connected_state 0)))
  = credentials (Some 0%nat) 5 "s".
Proof.
  exact (proj1 (proj2 (initialize_client_constructor_raises (failing is_new_client_call)
    5 "s" (connected_state 0) 0 _ eq_refl eq_refl eq_refl))).
Defined.

(** X5: when the first [connect] raises, the client that was just
    constructed is stored all the same: [get_client] returns it from then
    on, although no transport was opened. *)
Theorem initialize_client_connect_raises
    (env : Env) (i : Z) (a : string) (st : state) (e : exn) :
  client (mgr st) = None ->
  let self := length (trace st) in
  env (trace st) (new_client_call self i a) = inr tt ->
  env (trace (record_call (new_client_call self i a) true st)) (Connect self) = inl e ->
  let st' := snd (Manager.initialize_client env i a st) in
  fst (Manager.initialize_client env i a st) = inl e /\
  Manager.get_client st' = (inr self, st') /\
  live_after (trace st') = live_after (trace st).
Proof.
  intros Hc self Hn Hco st'. subst st'.
  rewrite (initialize_client_none env i a st Hc), open_new_unfold. cbn zeta.
  fold self. rewrite Hn, Hco. cbn [fst snd succeeded]. split; [done|]. split.
  - by apply get_client_some.
  - cbn [trace]. rewrite live_after_record. unfold transport_step. cbn [ev_call ev_ok].
    by rewrite live_after_record_other.
Qed.

Lemma initialize_client_connect_raises_witness :
  Manager.get_client
    (snd (Manager.initialize_client (failing is_connect_call) 5 "s" initial_state)) =
  (inr 0%nat, snd (Manager.initialize_client (failing is_connect_call) 5 "s" initial_state)).
Proof.
  exact (proj1 (proj2 (initialize_client_connect_raises (failing is_connect_call)
    5 "s" initial_state _ eq_refl eq_refl eq_refl))).
Defined.

(** ** [send_story], case by case *)

Lemma send_story_unfold (env : Env) (r : StoryRequest.t) (st : state) :
  send_story env r st =
    match client (mgr st) with
    | None => (inl (HTTPException 400 "Client not initialized"), st)
    | Some c =>
        let st1 := record_call (authorization_query c) true st in
        match env (trace st) (authorization_query c) with
        | inl e =>
            (inl (HTTPException 500 (str_exn e)),
             record_call (authorization_query c) false st)
        | inr false =>
            (inl (HTTPException 500
                    (str_exn (HTTPException 401
                                "Unauthorized. Please authenticate first."))), st1)
        | inr true =>
            let st2 := record_call (upload_call c r) true st1 in
            match env (trace st1) (upload_call c r) with
            | inl e =>
                (inl (HTTPException 500 (str_exn e)),
                 record_call (upload_call c r) false st1)
            | inr f =>
                match env (trace st2) (story_call c r f) with
                | inl e =>
                    (inl (HTTPException 500 (str_exn e)),
                     record_call (story_call c r f) false st2)
                | inr _ => (inr story_sent, record_call (story_call c r f) true st2)
                end
            end
        end
    end.
Proof.
  unfold send_story, bind, get_client.
  destruct (client (mgr st)) as [c|] eqn:Hc.
  - rewrite (get_client_some st c Hc). unfold send_story_body. unfold_m.
    unfold authorization_query, upload_call, story_call. cbn beta iota zeta.
    destruct (env (trace st) (IsUserAuthorized c)) as [e|[|]]; [done| |done].
    cbn beta iota zeta. cbn [negb].
    destruct (env _ (ClientUploadFile _ _)) as [e|f]; [done|]. cbn beta iota zeta.
    by destruct (env _ (InvokeSendStory _ _ _ _)).
  - by rewrite (get_client_none st Hc).
Qed.

Lemma added_record2 (c1 c2 : call) (ok1 ok2 : bool) (st : state) :
  added st (record_call c2 ok2 (record_call c1 ok1 st)) =
    [{| ev_call := c1; ev_ok := ok1 |}; {| ev_call := c2; ev_ok := ok2 |}].
Proof. apply added_app. unfold record_call. cbn [trace]. by rewrite <- app_assoc. Qed.

Lemma added_record3 (c1 c2 c3 : call) (ok1 ok2 ok3 : bool) (st : state) :
  added st (record_call c3 ok3 (record_call c2 ok2 (record_call c1 ok1 st))) =
    [{| ev_call := c1; ev_ok := ok1 |}; {| ev_call := c2; ev_ok := ok2 |};
     {| ev_call := c3; ev_ok := ok3 |}].
Proof. apply added_app. unfold record_call. cbn [trace]. by rewrite <- !app_assoc. Qed.

Lemma added_same (st : state) : added st st = [].
Proof. apply added_app. by rewrite app_nil_r. Qed.

(** X6: [send_story] reaches [upload_file] at most once and
    [SendStoryRequest] at most once; [upload_file] is called only after the
    authorization query answered [True], and [SendStoryRequest] only after
    [upload_file] returned, with the uploaded file as its media, the
    request's spoiler flag and time to live, and the contacts-only privacy
    rule. *)
Theorem send_story_call_order (env : Env) (r : StoryRequest.t) (st : state) :
  let evs := added st (snd (send_story env r st)) in
  (count_calls is_upload_call evs <= 1)%nat /\
  (count_calls is_story_call evs <= 1)%nat /\
  (count_calls is_upload_call evs = 1%nat ->
     exists c, client (mgr st) = Some c /\
       env (trace st) (authorization_query c) = inr true /\
       exists ok rest,
         evs = {| ev_call := authorization_query c; ev_ok := true |} ::
               {| ev_call := upload_call c r; ev_ok := ok |} :: rest) /\
  (count_calls is_story_call evs = 1%nat ->
     exists c f ok, client (mgr st) = Some c /\
       env (trace (record_call (authorization_query c) true st)) (upload_call c r) = inr f /\
       evs = [{| ev_call := authorization_query c; ev_ok := true |};
              {| ev_call := upload_call c r; ev_ok := true |};
              {| ev_call := story_call c r f; ev_ok := ok |}]).
Proof.
  cbn zeta. rewrite send_story_unfold.
  destruct (client (mgr st)) as [c|] eqn:Hc; cbn [snd].
  2:{ rewrite added_same. unfold count_calls. simpl. split; [lia|]. split; [lia|]. split; discriminate. }
  cbn zeta.
  destruct (env (trace st) (authorization_query c)) as [e|[|]] eqn:Hq; cbn [snd].
  - rewrite added_record_call. unfold count_calls. simpl. split; [lia|]. split; [lia|]. split; discriminate.
  - destruct (env _ (upload_call c r)) as [e|f] eqn:Hu; cbn [snd].
    + rewrite added_record2. unfold count_calls. simpl. split; [lia|]. split; [lia|]. split; [|discriminate].
      intros _. exists c. split; [done|]. split; [done|]. by exists false, [].
    + destruct (env _ (story_call c r f)) as [e|[]] eqn:Hs; cbn [snd];
        rewrite added_record3; unfold count_calls; simpl; (split; [lia|]); (split; [lia|]); split; intros _.
      * exists c. split; [done|]. split; [done|]. by eexists true, [_].
      * by exists c, f, false.
      * exists c. split; [done|]. split; [done|]. by eexists true, [_].
      * by exists c, f, true.
  - rewrite added_record_call. unfold count_calls. simpl. split; [lia|]. split; [lia|]. split; discriminate.
Qed.

(** X7: [send_story] answers 200 exactly when a client is stored, the
    authorization query answers [True], [upload_file] returns and
    [SendStoryRequest] returns; the run then consists of these three calls
    in this order and the body is the fixed confirmation message. *)
Theorem send_story_success (env : Env) (r : StoryRequest.t) (st : state) :
  status (fst (serve (send_story env r) st)) = 200 <->
  exists c f,
    client (mgr st) = Some c /\
    env (trace st) (authorization_query c) = inr true /\
    env (trace (record_call (authorization_query c) true st)) (upload_call c r) = inr f /\
    env (trace (record_call (upload_call c r) true
                  (record_call (authorization_query c) true st)))
        (story_call c r f) = inr tt /\
    serve (send_story env r) st =
      ({| status := 200; body := story_sent |},
       record_call (story_call c r f) true
         (record_call (upload_call c r) true
            (record_call (authorization_query c) true st))).
Proof.
  unfold serve. rewrite send_story_unfold. split.
  - destruct (client (mgr st)) as [c|] eqn:Hc; [|discriminate]. cbn zeta.
    destruct (env (trace st) (authorization_query c)) as [e|[|]] eqn:Hq;
      [discriminate| |discriminate].
    destruct (env _ (upload_call c r)) as [e|f] eqn:Hu; [discriminate|].
    destruct (env _ (story_call c r f)) as [e|[]] eqn:Hs; [discriminate|].
    intros _. exists c, f. by rewrite Hs.
  - intros (c & f & Hc & Hq & Hu & Hs & _). rewrite Hc. cbn zeta.
    by rewrite Hq, Hu, Hs.
Qed.

(** X8: whenever the calls of [send_story] return or raise an
    [Exception], it never answers 401: its response is 200, 400 or 500, and
    it is 400 exactly when no client is stored. *)
Theorem send_story_statuses (env : Env) (r : StoryRequest.t) (st : state) :
  let resp := fst (serve (send_story env r) st) in
  (status resp = 200 \/ status resp = 400 \/ status resp = 500) /\
  (status resp = 400 <-> client (mgr st) = None).
Proof.
  cbn zeta. unfold serve. rewrite send_story_unfold.
  destruct (client (mgr st)) as [c|] eqn:Hc.
  2:{ cbn. split; [tauto|]. done. }
  cbn zeta.
  assert (Hne : Some c = None <-> False) by (split; [discriminate | tauto]).
  destruct (env (trace st) (authorization_query c)) as [e|[|]].
  2:{ destruct (env _ (upload_call c r)) as [e|f].
      - cbn. split; [tauto|]. rewrite Hne; split; [lia|tauto].
      - destruct (env _ (story_call c r f)) as [e|[]]; cbn;
          (split; [tauto|]); rewrite Hne; (split; [lia|tauto]). }
  all: cbn; (split; [tauto|]); rewrite Hne; (split; [lia|tauto]).
Qed.

(** ** [verify_otp], case by case *)

Lemma verify_otp_unfold (env : Env) (r : OTPVerification.t) (st : state) :
  verify_otp env r st =
    match client (mgr st) with
    | None => (inl (verify_otp_except (HTTPException 400 "Client not initialized")), st)
    | Some c =>
        let st1 := record_call (sign_in_call c r) true st in
        match env (trace st) (sign_in_call c r) with
        | inl e => (inl (verify_otp_except e), record_call (sign_in_call c r) false st)
        | inr _ =>
            match env (trace st1) (GetMe c) with
            | inl e => (inl (verify_otp_except e), record_call (GetMe c) false st1)
            | inr None =>
                (inl (HTTPException 500 no_first_name), record_call (GetMe c) true st1)
            | inr (Some u) => (inr (authenticated_as u), record_call (GetMe c) true st1)
            end
        end
    end.
Proof.
  destruct (client (mgr st)) as [c|] eqn:Hc.
  - cbn zeta. destruct (env (trace st) (sign_in_call c r)) as [e|[]] eqn:Hs.
    + rewrite (verify_otp_sign_in_raises env r st c e Hc Hs). by destruct e.
    + unfold verify_otp, try_except, bind at 1, get_client.
      rewrite (get_client_some st c Hc). unfold bind, invoke. cbn beta iota zeta.
      unfold sign_in_call in Hs. rewrite Hs. cbn beta iota zeta.
      change (record_call (SignIn c (OTPVerification.phone r) (OTPVerification.code r)
                (OTPVerification.phone_code_hash r)) (succeeded (inr ())) st)
        with (record_call (sign_in_call c r) true st).
      destruct (env _ (GetMe c)) as [e|[u|]]; [by destruct e| done | done].
  - by rewrite (verify_otp_not_initialized env r st Hc).
Qed.

(** X9: once [sign_in] has returned, the answer of [verify_otp] is
    decided by [get_me]: a user gives 200 "Authenticated as" followed by the
    first name (the text [None] when the user has none); no user gives 500;
    the two authentication errors give the same two 401 responses as when
    [sign_in] raises them; any other exception gives 500 with its text. *)
Theorem verify_otp_after_sign_in
    (env : Env) (r : OTPVerification.t) (st : state) (c : handle)
    (g : exn + option User) :
  client (mgr st) = Some c ->
  env (trace st) (sign_in_call c r) = inr tt ->
  env (trace (record_call (sign_in_call c r) true st)) (GetMe c) = g ->
  fst (serve (verify_otp env r) st) =
    match g with
    | inr (Some u) =>
        {| status := 200;
           body := [("message", "Authenticated as " +:+ str_opt (first_name u))] |}
    | inr None => error_response 500 no_first_name
    | inl (SessionPasswordNeededError _) => two_factor_response
    | inl (PhoneCodeInvalidError _) => invalid_code_response
    | inl e => error_response 500 (str_exn e)
    end /\
  added st (snd (serve (verify_otp env r) st)) =
    [{| ev_call := sign_in_call c r; ev_ok := true |};
     {| ev_call := GetMe c; ev_ok := succeeded g |}].
Proof.
  intros Hc Hs Hg. unfold serve. rewrite verify_otp_unfold, Hc. cbn zeta.
  rewrite Hs, Hg. destruct g as [e|[u|]]; cbn [fst snd].
  - split; [by destruct e | apply added_record2].
  - split; [done | apply added_record2].
  - split; [done | apply added_record2].
Qed.

Lemma verify_otp_after_sign_in_witness :
  fst (serve (verify_otp (with_get_me (inr (Some {| first_name := None |}))) otp_request)
         (connected_state 0)) =
    {| status := 200; body := [("message", "Authenticated as None")] |} /\
  fst (serve (verify_otp (with_get_me (inr None)) otp_request) (connected_state 0)) =
    error_response 500 no_first_name /\
  fst (serve (verify_otp (with_get_me (inl (PhoneCodeInvalidError "invalid"))) otp_request)
         (connected_state 0)) = invalid_code_response.
Proof.
  split; [|split].
  - exact (proj1 (verify_otp_after_sign_in _ otp_request (connected_state 0) 0 _
                    eq_refl eq_refl eq_refl)).
  - exact (proj1 (verify_otp_after_sign_in _ otp_request (connected_state 0) 0 _
                    eq_refl eq_refl eq_refl)).
  - exact (proj1 (verify_otp_after_sign_in _ otp_request (connected_state 0) 0 _
                    eq_refl eq_refl eq_refl)).
Defined.

(** X10: whenever the calls of [verify_otp] return or raise an
    [Exception], it answers 200, 401 or 500 and nothing else (never 400,
    also when no client is stored), and it makes at most two calls. *)
Theorem verify_otp_statuses (env : Env) (r : OTPVerification.t) (st : state) :
  let resp := fst (serve (verify_otp env r) st) in
  (status resp = 200 \/ status resp = 401 \/ status resp = 500) /\
  (length (added st (snd (verify_otp env r st))) <= 2)%nat.
Proof.
  cbn zeta. unfold serve. rewrite verify_otp_unfold.
  destruct (client (mgr st)) as [c|].
  2:{ cbn [fst snd]. rewrite added_same. cbn. split; [tauto|lia]. }
  cbn zeta. destruct (env (trace st) (sign_in_call c r)) as [e|[]].
  { cbn [fst snd]. rewrite added_record_call.
    split; [destruct e; cbn; tauto|]. cbn; lia. }
  destruct (env _ (GetMe c)) as [e|[u|]]; cbn [fst snd]; rewrite added_record2.
  - split; [destruct e; cbn; tauto|]. cbn; lia.
  - split; [cbn; tauto|]. cbn; lia.
  - split; [cbn; tauto|]. cbn; lia.
Qed.

(** ** [generate_otp] when something fails *)

(** X11: when the [disconnect] of the previously stored client raises,
    [generate_otp] answers 500 with the text of that exception; no client is
    constructed, no code is requested, and the manager keeps the previous
    client and credentials. *)
Theorem generate_otp_teardown_failure
    (env : Env) (r : PhoneNumber.t) (st : state) (old : handle) (e : exn) :
  client (mgr st) = Some old ->
  env (trace st) (Disconnect old) = inl e ->
  serve (generate_otp env r) st =
    (error_response 500 (str_exn e), record_call (Disconnect old) false st) /\
  mgr (snd (serve (generate_otp env r) st)) = mgr st /\
  count_calls is_code_request (added st (snd (serve (generate_otp env r) st))) = 0%nat /\
  count_calls is_new_client_call (added st (snd (serve (generate_otp env r) st))) = 0%nat.
Proof.
  intros Hc He. unfold serve. rewrite generate_otp_unfold. unfold initialize_for.
  rewrite (initialize_client_some env _ _ st old Hc), He. cbn [fst snd respond].
  rewrite added_record_call. by repeat split.
Qed.

Lemma generate_otp_teardown_failure_witness :
  serve (generate_otp (failing is_disconnect_call) phone_request) (connected_state 0) =
    (error_response 500 "connection lost",
     record_call (Disconnect 0) false (connected_state 0)).
Proof.
  exact (proj1 (generate_otp_teardown_failure (failing is_disconnect_call) phone_request
                  (connected_state 0) 0 _ eq_refl eq_refl)).
Defined.

(** X12: [generate_otp] answers 200 or 500 and nothing else; after a 200
    the manager stores a client bound to the request's credentials whose
    transport is open, so a following [get_client] succeeds. *)
Theorem generate_otp_statuses (env : Env) (r : PhoneNumber.t) (st : state) :
  let resp := fst (serve (generate_otp env r) st) in
  let st' := snd (serve (generate_otp env r) st) in
  (status resp = 200 \/ status resp = 500) /\
  (status resp = 200 ->
     exists c,
       mgr st' = credentials (Some c) (PhoneNumber.app_id r) (PhoneNumber.app_hash r) /\
       Manager.get_client st' = (inr c, st') /\
       c ∈ live_after (trace st')) /\
  (forall e, fst (generate_otp env r st) = inl e ->
     exists detail, e = HTTPException 500 detail).
Proof.
  cbn zeta. unfold serve. rewrite generate_otp_unfold. unfold initialize_for.
  pose proof (initialize_client_returns_trace env (PhoneNumber.app_id r)
                (PhoneNumber.app_hash r) st) as Hret.
  destruct (Manager.initialize_client env _ _ st) as [[e|[]] st1]; cbn [fst snd] in *.
  { split; [by right|]. split; [discriminate|]. intros e' [= <-]. by eexists. }
  destruct (Hret eq_refl) as (c & pre & Hm & Htr).
  rewrite Hm. cbn [client credentials].
  destruct (env (trace st1) (code_request c r)) as [e|sent]; cbn [fst snd respond status].
  { split; [by right|]. split; [discriminate|]. intros e' [= <-]. by eexists. }
  split; [by left|]. split; [|discriminate].
  intros _. exists c. rewrite mgr_record_call. split; [done|].
  split; [apply get_client_some; by rewrite mgr_record_call, Hm|].
  rewrite live_after_record_other by done. rewrite Htr, live_after_snoc.
  unfold transport_step. cbn [ev_call ev_ok]. set_solver.
Qed.

(** ** The single connection *)

Lemma only_stored_live_none (st : state) :
  only_stored_live st -> client (mgr st) = None -> live_after (trace st) = ∅.
Proof.
  intros Hinv Hc. apply set_eq. intros c. split; [|set_solver].
  intros Hin. specialize (Hinv c Hin). congruence.
Qed.

Lemma only_stored_live_some (st : state) (c : handle) :
  only_stored_live st -> client (mgr st) = Some c -> live_after (trace st) ⊆ {[c]}.
Proof.
  intros Hinv Hc c' Hin. specialize (Hinv c' Hin). rewrite Hc in Hinv.
  injection Hinv as ->. set_solver.
Qed.

Lemma open_new_only_stored_live (env : Env) (i : Z) (a : string) (st : state) :
  live_after (trace st) = ∅ -> only_stored_live (snd (open_new env i a st)).
Proof.
  intros Hl. rewrite open_new_unfold. cbn zeta.
  destruct (env (trace st) _) as [e|[]]; cbn [snd]; intros c; cbn [trace mgr].
  - rewrite live_after_record_other, Hl by done. set_solver.
  - rewrite live_after_record. unfold transport_step. cbn [ev_call ev_ok].
    rewrite live_after_record_other, Hl by done.
    destruct (succeeded _); [|set_solver].
    intros Hin. assert (c = length (trace st)) as -> by set_solver. reflexivity.
Qed.

Lemma initialize_client_only_stored_live (env : Env) (i : Z) (a : string) (st : state) :
  only_stored_live st -> only_stored_live (snd (Manager.initialize_client env i a st)).
Proof.
  intros Hinv. destruct (client (mgr st)) as [old|] eqn:Hc.
  - rewrite (initialize_client_some env i a st old Hc).
    pose proof (only_stored_live_some st old Hinv Hc) as Hsub.
    destruct (env (trace st) (Disconnect old)) as [e|[]].
    + cbn [snd]. intros c. rewrite live_after_record, mgr_record_call.
      unfold transport_step. cbn [ev_call ev_ok]. apply Hinv.
    + apply open_new_only_stored_live. rewrite live_after_record.
      unfold transport_step. cbn [ev_call ev_ok]. set_solver.
  - rewrite (initialize_client_none env i a st Hc).
    apply open_new_only_stored_live. by apply only_stored_live_none.
Qed.

Lemma disconnect_only_stored_live (env : Env) (st : state) :
  only_stored_live st -> only_stored_live (snd (Manager.disconnect env st)).
Proof.
  intros Hinv. destruct (client (mgr st)) as [c|] eqn:Hc.
  - rewrite (disconnect_some env st c Hc). cbn [snd]. intros c'.
    rewrite live_after_record, mgr_record_call. unfold transport_step.
    cbn [ev_call ev_ok]. destruct (succeeded _); [|apply Hinv].
    intros Hin. apply Hinv. set_solver.
  - by rewrite (disconnect_none env st Hc).
Qed.

Lemma verify_otp_keeps_live (env : Env) (r : OTPVerification.t) (st : state) :
  live_after (trace (snd (verify_otp env r st))) = live_after (trace st).
Proof.
  rewrite verify_otp_unfold. destruct (client (mgr st)) as [c|]; [|done]. cbn zeta.
  destruct (env (trace st) (sign_in_call c r)) as [e|[]]; cbn [snd].
  - by rewrite live_after_record_other.
  - destruct (env _ (GetMe c)) as [e|[u|]]; cbn [snd];
      by rewrite !live_after_record_other.
Qed.

Lemma send_story_keeps_live (env : Env) (r : StoryRequest.t) (st : state) :
  live_after (trace (snd (send_story env r st))) = live_after (trace st).
Proof.
  rewrite send_story_unfold. destruct (client (mgr st)) as [c|]; [|done]. cbn zeta.
  destruct (env (trace st) (authorization_query c)) as [e|[|]]; cbn [snd];
    [by rewrite live_after_record_other | | by rewrite live_after_record_other].
  destruct (env _ (upload_call c r)) as [e|f]; cbn [snd];
    [by rewrite !live_after_record_other|].
  destruct (env _ (story_call c r f)) as [e|[]]; cbn [snd];
    by rewrite !live_after_record_other.
Qed.

Lemma upload_image_unfold (env : Env) (file : UploadFile.t) (st : state) :
  upload_image env file st =
    match UploadFile.filename file with
    | None => (inl (HTTPException 500 no_filename), st)
    | Some name =>
        let st1 := record_call Uuid4 true st in
        match env (trace st) Uuid4 with
        | inl e => (inl (HTTPException 500 (str_exn e)), record_call Uuid4 false st)
        | inr uuid =>
            let w := write_call uuid name (UploadFile.file file) in
            match env (trace st1) w with
            | inl e => (inl (HTTPException 500 (str_exn e)), record_call w false st1)
            | inr _ =>
                (inr (upload_body uuid (file_extension name)), record_call w true st1)
            end
        end
    end.
Proof.
  unfold upload_image. unfold_m. unfold write_call, file_extension.
  destruct (UploadFile.filename file) as [name|]; [|done]. cbn beta iota zeta.
  destruct (env (trace st) Uuid4) as [e|uuid]; [done|]. cbn beta iota zeta.
  by destruct (env _ (CopyToFile _ _)).
Qed.

Lemma upload_image_keeps_live (env : Env) (file : UploadFile.t) (st : state) :
  live_after (trace (snd (upload_image env file st))) = live_after (trace st).
Proof.
  rewrite upload_image_unfold. destruct (UploadFile.filename file) as [name|]; [|done].
  cbn zeta. destruct (env (trace st) Uuid4) as [e|uuid]; cbn [snd];
    [by rewrite live_after_record_other|].
  destruct (env _ (write_call _ _ _)); cbn [snd]; by rewrite !live_after_record_other.
Qed.

Lemma verify_otp_no_transport_call (env : Env) (r : OTPVerification.t) (st : state) :
  count_calls is_transport_call (added st (snd (verify_otp env r st))) = 0%nat.
Proof.
  rewrite verify_otp_unfold. destruct (client (mgr st)) as [c|]; cbn [snd];
    [|by rewrite added_same]. cbn zeta.
  destruct (env (trace st) (sign_in_call c r)) as [e|[]]; cbn [snd];
    [by rewrite added_record_call|].
  destruct (env _ (GetMe c)) as [e|[u|]]; cbn [snd]; by rewrite added_record2.
Qed.

Lemma send_story_no_transport_call (env : Env) (r : StoryRequest.t) (st : state) :
  count_calls is_transport_call (added st (snd (send_story env r st))) = 0%nat.
Proof.
  rewrite send_story_unfold. destruct (client (mgr st)) as [c|]; cbn [snd];
    [|by rewrite added_same]. cbn zeta.
  destruct (env (trace st) (authorization_query c)) as [e|[|]]; cbn [snd];
    [by rewrite added_record_call | | by rewrite added_record_call].
  destruct (env _ (upload_call c r)) as [e|f]; cbn [snd]; [by rewrite added_record2|].
  destruct (env _ (story_call c r f)) as [e|[]]; cbn [snd]; by rewrite added_record3.
Qed.

Lemma upload_image_no_transport_call (env : Env) (file : UploadFile.t) (st : state) :
  count_calls is_transport_call (added st (snd (upload_image env file st))) = 0%nat.
Proof.
  rewrite upload_image_unfold. destruct (UploadFile.filename file) as [name|]; cbn [snd];
    [|by rewrite added_same]. cbn zeta.
  destruct (env (trace st) Uuid4) as [e|uuid]; cbn [snd]; [by rewrite added_record_call|].
  destruct (env _ (write_call _ _ _)); cbn [snd]; by rewrite added_record2.
Qed.

(** X13: [verify_otp], [send_story] and [upload_image] never touch the
    connection: the manager (client, application id and secret) is the same
    afterwards, none of the calls they make is a [connect] or a
    [disconnect], and so the open transports are the same. *)
Theorem handlers_leave_connection
    (env : Env) (otp : OTPVerification.t) (story : StoryRequest.t)
    (file : UploadFile.t) (st : state) :
  (mgr (snd (verify_otp env otp st)) = mgr st /\
   count_calls is_transport_call (added st (snd (verify_otp env otp st))) = 0%nat /\
   live_after (trace (snd (verify_otp env otp st))) = live_after (trace st)) /\
  (mgr (snd (send_story env story st)) = mgr st /\
   count_calls is_transport_call (added st (snd (send_story env story st))) = 0%nat /\
   live_after (trace (snd (send_story env story st))) = live_after (trace st)) /\
  (mgr (snd (upload_image env file st)) = mgr st /\
   count_calls is_transport_call (added st (snd (upload_image env file st))) = 0%nat /\
   live_after (trace (snd (upload_image env file st))) = live_after (trace st)).
Proof.
  repeat split.
  - apply verify_otp_keeps_manager.
  - apply verify_otp_no_transport_call.
  - apply verify_otp_keeps_live.
  - apply send_story_keeps_manager.
  - apply send_story_no_transport_call.
  - apply send_story_keeps_live.
  - apply upload_image_keeps_manager.
  - apply upload_image_no_transport_call.
  - apply upload_image_keeps_live.
Qed.

Lemma generate_otp_only_stored_live (env : Env) (r : PhoneNumber.t) (st : state) :
  only_stored_live st -> only_stored_live (snd (generate_otp env r st)).
Proof.
  intros Hinv. rewrite generate_otp_unfold. unfold initialize_for.
  pose proof (initialize_client_only_stored_live env (PhoneNumber.app_id r)
                (PhoneNumber.app_hash r) st Hinv) as H.
  destruct (Manager.initialize_client env _ _ st) as [[e|[]] st1]; cbn [fst snd] in *;
    [done|].
  destruct (client (mgr st1)) as [c|]; [|done].
  destruct (env _ _); cbn [snd]; intros c';
    rewrite live_after_record_other, mgr_record_call by done; apply H.
Qed.

Lemma same_connection_only_stored_live (st st' : state) :
  mgr st' = mgr st -> live_after (trace st') = live_after (trace st) ->
  only_stored_live st -> only_stored_live st'.
Proof. intros Hm Hl Hinv c. rewrite Hm, Hl. apply Hinv. Qed.

Lemma run_op_only_stored_live (env : Env) (o : op) (st : state) :
  only_stored_live st -> only_stored_live (run_op env o st).
Proof.
  intros Hinv. destruct o; cbn [run_op].
  - by apply initialize_client_only_stored_live.
  - by rewrite get_client_pure.
  - by apply disconnect_only_stored_live.
  - by apply generate_otp_only_stored_live.
  - apply (same_connection_only_stored_live st);
      [apply verify_otp_keeps_manager | apply verify_otp_keeps_live | done].
  - apply (same_connection_only_stored_live st);
      [apply send_story_keeps_manager | apply send_story_keeps_live | done].
  - apply (same_connection_only_stored_live st);
      [apply upload_image_keeps_manager | apply upload_image_keeps_live | done].
Qed.

Lemma only_stored_live_size (st : state) :
  only_stored_live st -> (size (live_after (trace st)) <= 1)%nat.
Proof.
  intros Hinv. destruct (client (mgr st)) as [c|] eqn:Hc.
  - apply (size_at_most_one _ c). by apply only_stored_live_some.
  - rewrite (only_stored_live_none st Hinv Hc), size_empty. lia.
Qed.

Lemma initial_state_only_stored_live : only_stored_live initial_state.
Proof. intros c. unfold initial_state, live_after. cbn. set_solver. Qed.

Lemma run_ops_only_stored_live (env : Env) (ops : list op) (st : state) :
  only_stored_live st -> only_stored_live (run_ops env ops st).
Proof.
  revert st. induction ops as [|o ops IH]; intros st Hinv; [exact Hinv|].
  unfold run_ops in *. cbn [foldl]. apply IH. by apply run_op_only_stored_live.
Qed.

(** X14: if every open transport belongs to the stored client, then the
    same holds after any sequence of manager operations and requests, and
    at most one transport is open; in particular this holds for every run
    that starts in the initial state. *)
Theorem single_connection (env : Env) (ops : list op) (st : state) :
  only_stored_live st ->
  only_stored_live (run_ops env ops st) /\
  (size (live_after (trace (run_ops env ops st))) <= 1)%nat.
Proof.
  intros Hinv. pose proof (run_ops_only_stored_live env ops st Hinv) as H.
  split; [done | by apply only_stored_live_size].
Qed.

Lemma single_connection_witness :
  (size (live_after (trace (run_ops (scripted happy)
     [OpGenerateOtp phone_request; OpVerifyOtp otp_request;
      OpGenerateOtp phone_request; OpSendStory story_request]
     initial_state))) <= 1)%nat.
Proof.
  exact (proj2 (single_connection (scripted happy) _ initial_state
                  initial_state_only_stored_live)).
Defined.

(** ** [disconnect] with a stored client, and shutdown *)

Lemma repeat_disconnect_some (env : Env) (n : nat) (st : state) (c : handle) :
  client (mgr st) = Some c ->
  exists evs,
    trace (run_ops env (repeat OpDisconnect n) st) = (trace st ++ evs)%list /\
    length evs = n /\
    Forall (fun e => ev_call e = Disconnect c) evs /\
    mgr (run_ops env (repeat OpDisconnect n) st) = mgr st.
Proof.
  revert st. induction n as [|n IH]; intros st Hc.
  - exists []. by rewrite app_nil_r.
  - unfold run_ops in *. cbn [repeat foldl run_op].
    rewrite (disconnect_some env st c Hc). cbn [snd].
    destruct (IH (record_call (Disconnect c) (succeeded (env (trace st) (Disconnect c))) st))
      as (evs & Htr & Hlen & Hall & Hm); [by rewrite mgr_record_call|].
    exists ({| ev_call := Disconnect c;
               ev_ok := succeeded (env (trace st) (Disconnect c)) |} :: evs).
    split; [rewrite Htr; unfold record_call; cbn [trace]; by rewrite <- app_assoc|].
    split; [cbn; by rewrite Hlen|]. split; [by constructor|]. by rewrite Hm.
Qed.

(** X15: with a client stored, [disconnect] passes on whatever the
    client's [disconnect] does, and it is not remembered that the client was
    disconnected: each of [n] calls in a row reaches the client library
    again, and the manager stays as it was. *)
Theorem disconnect_with_client (env : Env) (n : nat) (st : state) (c : handle) :
  client (mgr st) = Some c ->
  fst (Manager.disconnect env st) = env (trace st) (Disconnect c) /\
  mgr (run_ops env (repeat OpDisconnect n) st) = mgr st /\
  count_calls is_disconnect_call (added st (run_ops env (repeat OpDisconnect n) st)) = n /\
  Forall (fun e => ev_call e = Disconnect c)
    (added st (run_ops env (repeat OpDisconnect n) st)).
Proof.
  intros Hc. split; [by rewrite (disconnect_some env st c Hc)|].
  destruct (repeat_disconnect_some env n st c Hc) as (evs & Htr & Hlen & Hall & Hm).
  split; [done|]. rewrite (added_app _ _ evs Htr). split; [|done].
  rewrite <- Hlen. clear Hlen Htr. unfold count_calls.
  induction Hall as [|e evs He Hall IH]; [done|].
  rewrite filter_cons_True by (by rewrite He). cbn. by rewrite IH.
Qed.

Lemma disconnect_with_client_witness :
  count_calls is_disconnect_call
    (added (connected_state 0)
       (run_ops (scripted happy) (repeat OpDisconnect 3) (connected_state 0))) = 3%nat.
Proof.
  exact (proj1 (proj2 (proj2 (disconnect_with_client (scripted happy) 3
                  (connected_state 0) 0 eq_refl)))).
Defined.

(** X16: if every open transport belongs to the stored client, then after
    a shutdown whose [disconnect] returned no transport is open. *)
Theorem shutdown_closes_connection (env : Env) (st : state) :
  only_stored_live st ->
  fst (lifespan_shutdown env st) = inr tt ->
  live_after (trace (snd (lifespan_shutdown env st))) = ∅.
Proof.
  unfold lifespan_shutdown. intros Hinv Hr.
  destruct (client (mgr st)) as [c|] eqn:Hc.
  - rewrite (disconnect_some env st c Hc) in *. cbn [fst snd] in *.
    rewrite Hr. rewrite live_after_record. unfold transport_step. cbn [ev_call ev_ok succeeded].
    pose proof (only_stored_live_some st c Hinv Hc). set_solver.
  - rewrite (disconnect_none env st Hc). cbn [snd]. by apply only_stored_live_none.
Qed.

Lemma shutdown_closes_connection_witness :
  live_after
    (trace (snd (lifespan_shutdown (scripted happy)
                   (run_ops (scripted happy) [OpGenerateOtp phone_request] initial_state))))
  = ∅.
Proof.
  apply shutdown_closes_connection; [|reflexivity].
  apply run_ops_only_stored_live, initial_state_only_stored_live.
Defined.

(** ** The extension kept by [upload_image] *)

Lemma rfind_from_spec (c : ascii) (p : string) (i found : Z) :
  (os_path.rfind_from c p i found = found /\ has_char c p = false) \/
  (exists k : nat,
     os_path.rfind_from c p i found = (i + Z.of_nat k)%Z /\
     String.get k p = Some c /\
     has_char c (os_path.drop (S k) p) = false).
Proof.
  revert i found. induction p as [|a p IH]; intros i found; [by left|].
  cbn [os_path.rfind_from has_char].
  destruct (IH (i + 1)%Z (if Ascii.eqb a c then i else found)) as [[Hr Hn] | (k & Hr & Hg & Hn)].
  - destruct (Ascii.eqb a c) eqn:Hac.
    + right. exists 0%nat. apply Ascii.eqb_eq in Hac as ->.
      rewrite Hr. split; [lia|]. by split.
    + left. by rewrite Hr, Hn.
  - right. exists (S k). rewrite Hr. split; [lia|]. by split.
Qed.

Lemma has_char_drop (c : ascii) (n : nat) (p : string) :
  has_char c p = false -> has_char c (os_path.drop n p) = false.
Proof.
  revert p. induction n as [|n IH]; intros [|a p] H; try done.
  cbn [os_path.drop]. apply IH. cbn [has_char] in H.
  by apply orb_false_iff in H as [_ H].
Qed.

Lemma drop_add (n m : nat) (p : string) :
  os_path.drop (n + m) p = os_path.drop m (os_path.drop n p).
Proof.
  revert p. induction n as [|n IH]; intros [|a p]; try done.
  - cbn. by destruct m.
  - cbn [os_path.drop Nat.add]. apply IH.
Qed.

Lemma drop_get (k : nat) (p : string) (c : ascii) :
  String.get k p = Some c -> os_path.drop k p = String c (os_path.drop (S k) p).
Proof.
  revert p. induction k as [|k IH]; intros [|a p] H; try done.
  - by injection H as ->.
  - cbn [String.get] in H. cbn [os_path.drop]. rewrite (IH p H). reflexivity.
Qed.

Lemma has_char_append (c : ascii) (a b : string) :
  has_char c (a +:+ b) = (has_char c a || has_char c b)%bool.
Proof.
  induction a as [|x a IH]; [reflexivity|].
  change (String x a +:+ b) with (String x (a +:+ b)). cbn [has_char].
  by rewrite IH, orb_assoc.
Qed.

Lemma skip_leading_dots_snd (p : string) (f todo d : nat) :
  snd (os_path.skip_leading_dots p f todo d) = EmptyString \/
  snd (os_path.skip_leading_dots p f todo d) = os_path.drop d p.
Proof.
  revert f. induction todo as [|todo IH]; intros f; cbn [os_path.skip_leading_dots].
  - by left.
  - destruct (negb _); [by right | apply IH].
Qed.

(** The extension is empty, or a dot followed by characters that are
    neither dots nor separators. *)
Lemma file_extension_shape (name : string) :
  file_extension name = EmptyString \/
  exists rest,
    file_extension name = String os_path.extsep rest /\
    has_char os_path.extsep rest = false /\
    has_char os_path.sep rest = false.
Proof.
  unfold file_extension, os_path.splitext. cbn zeta.
  destruct (os_path.rfind os_path.extsep name >? os_path.rfind os_path.sep name)%Z eqn:Hgt;
    [|by left].
  apply Z.gtb_lt in Hgt.
  destruct (skip_leading_dots_snd name
              (Z.to_nat (os_path.rfind os_path.sep name + 1))
              (Z.to_nat (os_path.rfind os_path.extsep name
                         - (os_path.rfind os_path.sep name + 1)))
              (Z.to_nat (os_path.rfind os_path.extsep name))) as [-> | ->]; [by left|].
  right. unfold os_path.rfind in *.
  destruct (rfind_from_spec os_path.extsep name 0 (-1)) as [[Hd _] | (kd & Hd & Hgd & Hnd)].
  { (* no dot at all: the test above fails *)
    destruct (rfind_from_spec os_path.sep name 0 (-1)) as [[Hs _] | (ks & Hs & _)]; lia. }
  rewrite Hd, Z.add_0_l, Nat2Z.id. rewrite (drop_get kd name _ Hgd).
  exists (os_path.drop (S kd) name). split; [done|]. split; [done|].
  destruct (rfind_from_spec os_path.sep name 0 (-1)) as [[_ Hns] | (ks & Hs & _ & Hns)].
  - by apply has_char_drop.
  - assert (Hlt : (ks < kd)%nat) by lia.
    replace (S kd) with (S ks + (kd - ks))%nat by lia.
    rewrite drop_add. by apply has_char_drop.
Qed.

Lemma join_upload_dir (name : string) :
  os_path.startswith_sep name = false ->
  os_path.join UPLOAD_DIR name = "uploads/" +:+ name.
Proof. intros H. unfold os_path.join. by rewrite H. Qed.

Lemma startswith_sep_unique (uuid name : string) :
  os_path.startswith_sep uuid = false ->
  os_path.startswith_sep (uuid +:+ file_extension name) = false.
Proof.
  intros Hu. destruct uuid as [|a uuid]; [|exact Hu].
  change ("" +:+ file_extension name) with (file_extension name).
  by destruct (file_extension_shape name) as [-> | (rest & -> & _)].
Qed.

(** X17: the part of the client's file name that survives in the stored
    name is empty or a dot followed by characters that are neither dots nor
    [/]; so the stored name [<uuid><ext>] of a successful upload contains a
    [/] only if the generated identifier does. *)
Theorem upload_image_extension_safe
    (env : Env) (file : UploadFile.t) (st : state) (b : json) :
  fst (upload_image env file st) = inr b ->
  exists name uuid,
    UploadFile.filename file = Some name /\
    env (trace st) Uuid4 = inr uuid /\
    json_get "file_uri" b = Some ("/uploads/" +:+ (uuid +:+ file_extension name)) /\
    (file_extension name = EmptyString \/
     exists rest, file_extension name = String "." rest /\
       has_char "." rest = false /\ has_char "/" rest = false) /\
    has_char "/" (uuid +:+ file_extension name) = has_char "/" uuid.
Proof.
  intros Hb. destruct (upload_image_returns env file st b Hb) as (name & uuid & Hn & Hu & ->).
  exists name, uuid. repeat (split; [done|]).
  split; [apply file_extension_shape|].
  rewrite has_char_append.
  destruct (file_extension_shape name) as [-> | (rest & -> & _ & Hs)].
  - by rewrite orb_false_r.
  - cbn [has_char]. change os_path.sep with "/"%char in Hs. rewrite Hs. cbn.
    by rewrite orb_false_r.
Qed.

Lemma upload_image_extension_safe_witness :
  exists name uuid : string,
    has_char "/" (uuid +:+ file_extension name) = has_char "/" uuid.
Proof.
  destruct (upload_image_extension_safe (scripted happy) (photo "../../etc/passwd.d/x.cfg")
              initial_state _ eq_refl) as (name & uuid & _ & _ & _ & _ & H).
  by exists name, uuid.
Defined.

(** X18: when the generated identifier does not start with [/], a
    successful upload has written the file's content to
    [uploads/<uuid><ext>], as its last call, and the returned URI is that
    path with a [/] in front: the file is stored where the [/uploads] mount
    serves it. *)
Theorem upload_image_written_where_served
    (env : Env) (file : UploadFile.t) (st : state) (b : json) (uuid : string) :
  fst (upload_image env file st) = inr b ->
  env (trace st) Uuid4 = inr uuid ->
  os_path.startswith_sep uuid = false ->
  exists name,
    UploadFile.filename file = Some name /\
    added st (snd (upload_image env file st)) =
      [{| ev_call := Uuid4; ev_ok := true |};
       {| ev_call := CopyToFile (stored_path uuid name) (UploadFile.file file);
          ev_ok := true |}] /\
    json_get "file_uri" b = Some ("/" +:+ stored_path uuid name).
Proof.
  intros Hb Hu Hs. rewrite upload_image_unfold in *.
  destruct (UploadFile.filename file) as [name|]; [|discriminate]. cbn zeta in *.
  rewrite Hu in *.
  assert (Hw : write_call uuid name (UploadFile.file file) =
               CopyToFile (stored_path uuid name) (UploadFile.file file)).
  { unfold write_call, stored_path.
    by rewrite (join_upload_dir _ (startswith_sep_unique uuid name Hs)). }
  rewrite Hw in *.
  destruct (env _ (CopyToFile _ _)) as [e|[]]; [discriminate|]. cbn [fst snd] in *.
  injection Hb as <-. exists name. split; [done|]. split; [apply added_record2|].
  reflexivity.
Qed.

Lemma upload_image_written_where_served_witness :
  exists name,
    json_get "file_uri" (upload_body "1b9d6bcd-bbfd-4b2d-9b5d-ab8dfbbd4bed"
                           (file_extension "photo.jpg")) =
    Some ("/" +:+ stored_path "1b9d6bcd-bbfd-4b2d-9b5d-ab8dfbbd4bed" name).
Proof.
  destruct (upload_image_written_where_served (scripted happy) (photo "photo.jpg")
              initial_state _ _ eq_refl eq_refl eq_refl) as (name & _ & _ & H).
  by exists name.
Defined.

(** X19: [upload_image] answers 200 or 500 and nothing else; exactly one
    file is written when it answers 200 and none when it answers 500; an
    upload without a file name is refused before any identifier is generated
    or anything is written. *)
Theorem upload_image_writes (env : Env) (file : UploadFile.t) (st : state) :
  let resp := fst (serve (upload_image env file) st) in
  let evs := added st (snd (serve (upload_image env file) st)) in
  ((status resp = 200 /\ files_written evs = 1%nat) \/
   (status resp = 500 /\ files_written evs = 0%nat)) /\
  (UploadFile.filename file = None ->
     serve (upload_image env file) st = (error_response 500 no_filename, st)).
Proof.
  cbn zeta. unfold serve. rewrite upload_image_unfold.
  destruct (UploadFile.filename file) as [name|]; cbn [fst snd].
  2:{ split; [|done]. right. by rewrite added_same. }
  split; [|discriminate]. cbn zeta.
  destruct (env (trace st) Uuid4) as [e|uuid]; cbn [fst snd].
  { right. by rewrite added_record_call. }
  destruct (env _ (write_call _ _ _)) as [e|[]]; cbn [fst snd];
    rewrite added_record2; [right | left]; by split.
Qed.

(** ** Code requests *)

Lemma initialize_client_trace (env : Env) (i : Z) (a : string) (st : state) :
  exists evs,
    trace (snd (Manager.initialize_client env i a st)) = (trace st ++ evs)%list /\
    Forall (fun e => is_code_request (ev_call e) = false) evs.
Proof.
  assert (Hopen : forall st0, exists evs,
    trace (snd (open_new env i a st0)) = (trace st0 ++ evs)%list /\
    Forall (fun e => is_code_request (ev_call e) = false) evs).
  { intros st0. destruct (open_new_trace env i a st0) as (rest & Htr & Hshape & _).
    exists rest. split; [done|].
    destruct Hshape as [-> | [ok ->]]; by repeat constructor. }
  destruct (client (mgr st)) as [old|] eqn:Hc.
  - rewrite (initialize_client_some env i a st old Hc).
    destruct (env (trace st) (Disconnect old)) as [e|[]].
    + eexists [_]. split; [reflexivity|]. by repeat constructor.
    + destruct (Hopen (record_call (Disconnect old) true st)) as (evs & Htr & Hall).
      exists ({| ev_call := Disconnect old; ev_ok := true |} :: evs).
      split; [rewrite Htr; unfold record_call; cbn [trace]; by rewrite <- app_assoc|].
      by constructor.
  - rewrite (initialize_client_none env i a st Hc). apply Hopen.
Qed.

Lemma count_calls_app (p : call -> bool) (l1 l2 : list event) :
  count_calls p (l1 ++ l2) = (count_calls p l1 + count_calls p l2)%nat.
Proof. unfold count_calls. by rewrite filter_app, length_app. Qed.

Lemma count_calls_none (p : call -> bool) (evs : list event) :
  Forall (fun e => p (ev_call e) = false) evs -> count_calls p evs = 0%nat.
Proof.
  unfold count_calls. induction 1 as [|e evs He _ IH]; [done|].
  rewrite filter_cons_False; [done|]. by rewrite He.
Qed.

(** X20: [generate_otp] requests a code at most once per request, and
    only for the request's phone number with [force_sms=True]; it requests
    exactly one when it answers 200. *)
Theorem generate_otp_requests_once (env : Env) (r : PhoneNumber.t) (st : state) :
  let evs := added st (snd (serve (generate_otp env r) st)) in
  (count_calls is_code_request evs <= 1)%nat /\
  Forall (fun e => is_code_request (ev_call e) = true ->
            exists c, ev_call e = SendCodeRequest c (PhoneNumber.phone r) true) evs /\
  (status (fst (serve (generate_otp env r) st)) = 200 ->
     count_calls is_code_request evs = 1%nat).
Proof.
  cbn zeta. unfold serve. rewrite generate_otp_unfold. unfold initialize_for.
  destruct (initialize_client_trace env (PhoneNumber.app_id r) (PhoneNumber.app_hash r) st)
    as (evs & Htr & Hall).
  pose proof (count_calls_none is_code_request evs Hall) as Hzero.
  assert (Hquiet : Forall (fun e => is_code_request (ev_call e) = true ->
            exists c, ev_call e = SendCodeRequest c (PhoneNumber.phone r) true) evs).
  { eapply Forall_impl; [exact Hall|]. intros e He He'. congruence. }
  destruct (Manager.initialize_client env _ _ st) as [[e|[]] st1]; cbn [fst snd] in *.
  { rewrite (added_app _ _ evs Htr), Hzero. split; [lia|]. split; [done|]. discriminate. }
  destruct (client (mgr st1)) as [c|]; cbn [fst snd].
  2:{ rewrite (added_app _ _ evs Htr), Hzero. split; [lia|]. split; [done|]. discriminate. }
  assert (Hadd : forall ok, added st (record_call (code_request c r) ok st1) =
                   (evs ++ [{| ev_call := code_request c r; ev_ok := ok |}])%list).
  { intros ok. apply added_app. unfold record_call. cbn [trace].
    by rewrite Htr, <- app_assoc. }
  assert (Hcount : forall ok, count_calls is_code_request
                     (evs ++ [{| ev_call := code_request c r; ev_ok := ok |}]) = 1%nat).
  { intros ok. by rewrite count_calls_app, Hzero. }
  assert (Hall' : forall ok, Forall (fun e => is_code_request (ev_call e) = true ->
            exists c, ev_call e = SendCodeRequest c (PhoneNumber.phone r) true)
            (evs ++ [{| ev_call := code_request c r; ev_ok := ok |}])).
  { intros ok. apply Forall_app. split; [done|]. constructor; [|done].
    intros _. by exists c. }
  destruct (env (trace st1) (code_request c r)) as [e|sent]; cbn [fst snd];
    rewrite Hadd, Hcount; (split; [lia|]); (split; [apply Hall'|]); done.
Qed.

(** X21: after a [generate_otp] that answered 200, [verify_otp] does not
    fail for want of a client: its first call is [sign_in] with the
    request's phone, code and hash, on the client [generate_otp] stored. *)
Theorem verify_otp_after_generate_otp
    (env : Env) (p : PhoneNumber.t) (otp : OTPVerification.t) (st : state) :
  status (fst (serve (generate_otp env p) st)) = 200 ->
  let st1 := snd (serve (generate_otp env p) st) in
  exists c ok rest,
    client (mgr st1) = Some c /\
    added st1 (snd (verify_otp env otp st1)) =
      {| ev_call := SignIn c (OTPVerification.phone otp) (OTPVerification.code otp)
                      (OTPVerification.phone_code_hash otp);
         ev_ok := ok |} :: rest.
Proof.
  intros H200 st1.
  assert (Hc : exists c, client (mgr st1) = Some c).
  { subst st1. revert H200. unfold serve. rewrite generate_otp_unfold.
    destruct (initialize_for env p st) as [[e|[]] st0]; cbn [fst snd]; [discriminate|].
    destruct (client (mgr st0)) as [c|] eqn:Hc0; [|discriminate].
    destruct (env _ _); cbn [fst snd]; [discriminate|].
    intros _. exists c. by rewrite mgr_record_call. }
  destruct Hc as [c Hc]. exists c. rewrite verify_otp_unfold, Hc. cbn zeta.
  destruct (env (trace st1) (sign_in_call c otp)) as [e|[]]; cbn [snd].
  - exists false, []. split; [done|]. by rewrite added_record_call.
  - destruct (env _ (GetMe c)) as [e|[u|]]; cbn [snd];
      eexists true, [_]; (split; [done|]); by rewrite added_record2.
Qed.

Lemma verify_otp_after_generate_otp_witness :
  exists (c : handle) ok rest,
    added (snd (serve (generate_otp (scripted happy) phone_request) initial_state))
      (snd (verify_otp (scripted happy) otp_request
              (snd (serve (generate_otp (scripted happy) phone_request) initial_state)))) =
    {| ev_call := SignIn c "+15550001" "00000" "T1"; ev_ok := ok |} :: rest.
Proof.
  destruct (verify_otp_after_generate_otp (scripted happy) phone_request otp_request
              initial_state eq_refl) as (c & ok & rest & _ & H).
  by exists c, ok, rest.
Defined.
